(** * Task Manager backend ([backend/app.py])

    A shallow embedding of the Flask application: the three MongoDB
    collections become lists of records held in an explicit store, every
    route handler becomes a function from the store to a new store and an
    HTTP outcome, and the [verify_token] decorator becomes a higher-order
    function wrapping the protected handlers.

    The values that a handler obtains from its surroundings are arguments of
    the embedded handler, one per call in the source: each reading of
    [datetime.now()], the result of [secrets.token_hex(32)], and the
    [ObjectId] that the driver attaches to an inserted document.

    A document is stored as the driver encodes it: a [datetime] to the
    millisecond, an integer only if it fits 64 bits.  A string is held as
    the bytes of its UTF-8 encoding.  The database server is taken to
    answer every command, documents to stay within its size limit, and
    requests to be handled one at a time. *)

From stdpp Require Import gmap strings list sorting.
From Stdlib Require Import ZArith Ascii String SpecFloat.

Open Scope string_scope.
Open Scope list_scope.
Open Scope Z_scope.

(** ** Python built-ins used by the application *)

Module Py.

(** JSON scalars as Python sees them after [request.json]: [null], the
    booleans, a number without fraction or exponent as an [int] of any
    size, any other number as a [float] (an IEEE 754 double, which may be
    an infinity or not a number), and a string.  The documented payload
    fields are strings and booleans.  Arrays and nested objects are not
    part of this type: what the driver and the server accept as the keys
    of a nested document differs between their versions. *)
Inductive pyval :=
  | PNone
  | PBool (b : bool)
  | PInt (z : Z)
  | PFloat (f : spec_float)
  | PStr (s : string).

#[export] Instance spec_float_eq_dec : EqDecision spec_float.
Proof. solve_decision. Defined.

#[export] Instance pyval_eq_dec : EqDecision pyval.
Proof. solve_decision. Defined.

(** Truth value testing, as used by [if not x]. *)
Definition truthy (v : pyval) : bool :=
  match v with
  | PNone => false
  | PBool b => b
  | PInt z => negb (z =? 0)
  | PFloat f => match f with S754_zero _ => false | _ => true end
  | PStr s => negb (String.eqb s "")
  end.

(** [not x] for the result of [dict.get(key)], where a missing key yields
    [None]. *)
Definition falsy_get (o : option pyval) : bool :=
  match o with
  | None => true
  | Some v => negb (truthy v)
  end.

(** [not s] for an optional string. *)
Definition falsy_str (o : option string) : bool :=
  match o with
  | None => true
  | Some s => String.eqb s ""
  end.

(** Whether [s] begins with [p]. *)
Fixpoint starts_with (p s : string) : bool :=
  match p, s with
  | EmptyString, _ => true
  | String _ _, EmptyString => false
  | String a p', String b s' => Ascii.eqb a b && starts_with p' s'
  end.

(** [s.replace(old, new)] for a non-empty [old]: every non-overlapping
    occurrence of [old], scanning from the left, is replaced by [new].  The
    counter [skip] is the number of characters of a matched occurrence that
    are still to be consumed. *)
Fixpoint replace_from (old new : string) (skip : nat) (s : string) : string :=
  match s with
  | EmptyString => EmptyString
  | String c s' =>
      match skip with
      | S k => replace_from old new k s'
      | O =>
          if starts_with old s
          then new +:+ replace_from old new (Nat.pred (String.length old)) s'
          else String c (replace_from old new 0 s')
      end
  end.

Definition str_replace (old new s : string) : string :=
  replace_from old new 0 s.

(** *** [datetime]

    A naive [datetime] object holds its calendar fields; comparison is
    field by field, most significant first. *)
Record datetime := mk_datetime {
  year : Z; month : Z; day : Z;
  hour : Z; minute : Z; second : Z; microsecond : Z
}.

#[export] Instance datetime_eq_dec : EqDecision datetime.
Proof. solve_decision. Defined.

Definition is_leap (y : Z) : bool :=
  ((y mod 4 =? 0) && negb (y mod 100 =? 0)) || (y mod 400 =? 0).

Definition days_in_month (y m : Z) : Z :=
  if m =? 2 then (if is_leap y then 29 else 28)
  else if (m =? 4) || (m =? 6) || (m =? 9) || (m =? 11) then 30
  else 31.

(** The values a [datetime] can hold (years 1 to 9999). *)
Definition dt_valid (d : datetime) : bool :=
  (1 <=? year d) && (year d <=? 9999) &&
  (1 <=? month d) && (month d <=? 12) &&
  (1 <=? day d) && (day d <=? days_in_month (year d) (month d)) &&
  (0 <=? hour d) && (hour d <? 24) &&
  (0 <=? minute d) && (minute d <? 60) &&
  (0 <=? second d) && (second d <? 60) &&
  (0 <=? microsecond d) && (microsecond d <? 1000000).

Definition lex (c1 c2 : comparison) : comparison :=
  match c1 with
  | Eq => c2
  | _ => c1
  end.

Definition dt_compare (a b : datetime) : comparison :=
  lex (year a ?= year b)
  (lex (month a ?= month b)
  (lex (day a ?= day b)
  (lex (hour a ?= hour b)
  (lex (minute a ?= minute b)
  (lex (second a ?= second b)
       (microsecond a ?= microsecond b)))))).

(** [a < b] on datetimes. *)
Definition dt_ltb (a b : datetime) : bool :=
  match dt_compare a b with
  | Lt => true
  | _ => false
  end.

(** [d + timedelta(hours=24)]: the same time of day on the next calendar
    day; [None] stands for the [OverflowError] raised past year 9999. *)
Definition add_24h (d : datetime) : option datetime :=
  let with_date y m dd :=
    mk_datetime y m dd (hour d) (minute d) (second d) (microsecond d) in
  if day d <? days_in_month (year d) (month d)
  then Some (with_date (year d) (month d) (day d + 1))
  else if month d <? 12
  then Some (with_date (year d) (month d + 1) 1)
  else if year d <? 9999
  then Some (with_date (year d + 1) 1 1)
  else None.

(** Decimal digit [0..9] as a character. *)
Definition digit (n : Z) : ascii := ascii_of_N (48 + Z.to_N n).

(** ["%0wd" % n] for [0 <= n < 10^w]: exactly [w] digits, most significant
    first. *)
Fixpoint zpad (w : nat) (n : Z) : string :=
  match w with
  | O => EmptyString
  | S w' => String (digit (n / 10 ^ Z.of_nat w'))
                   (zpad w' (n mod 10 ^ Z.of_nat w'))
  end.

(** The fractional part printed by [isoformat]: omitted when the
    microsecond field is zero. *)
Definition iso_fraction (us : Z) : string :=
  if us =? 0 then "" else String "." (zpad 6 us).

(** [d.isoformat()] for a naive datetime:
    [YYYY-MM-DDTHH:MM:SS] followed by [.ffffff] when microseconds are
    non-zero. *)
Definition isoformat (d : datetime) : string :=
  zpad 4 (year d) +:+ "-" +:+ zpad 2 (month d) +:+ "-" +:+ zpad 2 (day d)
  +:+ "T" +:+ zpad 2 (hour d) +:+ ":" +:+ zpad 2 (minute d) +:+ ":"
  +:+ zpad 2 (second d) +:+ iso_fraction (microsecond d).

(** *** [list.sort(key=..., reverse=True)]

    The sort is stable, also under [reverse=True]: elements that compare
    equal keep their original order.  Strings are compared character by
    character, a proper prefix being smaller. *)
Section Sort.
Context {A : Type} (key : A → string).

(** Place [x] behind every element whose key is at least its own. *)
Fixpoint insert_desc (x : A) (l : list A) : list A :=
  match l with
  | [] => [x]
  | y :: l' =>
      if String.ltb (key y) (key x) then x :: y :: l'
      else y :: insert_desc x l'
  end.

Definition sort_desc (l : list A) : list A :=
  fold_left (fun acc x => insert_desc x acc) l [].

(** [a] may stand before [b] in a descending list: the key of [a] is not
    below that of [b]. *)
Definition not_below (a b : A) : Prop := String.ltb (key a) (key b) = false.
End Sort.

End Py.

Import Py.

(** ** Libraries outside the repository

    [bson.ObjectId] and [hashlib.sha256] are used through this interface:
    [oid_str o] is [str(o)], [oid_parse s] is [ObjectId(s)] with [None] for
    the [InvalidId] exception, and [sha256_hexdigest s] is
    [hashlib.sha256(s.encode()).hexdigest()]. *)
Class Platform := {
  ObjectId : Type;
  ObjectId_eq_dec :: EqDecision ObjectId;
  oid_str : ObjectId → string;
  oid_parse : string → option ObjectId;
  sha256_hexdigest : string → string
}.

(** ** Documents of the three collections *)

Module User.
Record t `{Platform} := mk {
  _id : ObjectId;
  username : string;
  email : string;
  password : string;
  created_at : datetime
}.
End User.

(** The session document's own [_id] is never read by the program and is
    left out. *)
Module Session.
Record t := mk {
  token : string;
  user_id : string;
  expires : datetime
}.
End Session.

Module Task.
Record t `{Platform} := mk {
  _id : ObjectId;
  title : pyval;
  description : pyval;
  completed : pyval;
  user_id : string;
  due_date : pyval;
  due_time : pyval;
  category : pyval;
  created_at : datetime;
  updated_at : datetime
}.
End Task.

(** A task as it is sent to the client: [id] replaces [_id] and the two
    timestamps are ISO-8601 strings. *)
Module TaskJson.
Record t := mk {
  title : pyval;
  description : pyval;
  completed : pyval;
  user_id : string;
  due_date : pyval;
  due_time : pyval;
  category : pyval;
  created_at : string;
  updated_at : string;
  id : string
}.
End TaskJson.

(** ** Collection operations of the driver

    A collection is the list of its documents in insertion order; a query
    document is the predicate it denotes. *)
Section Collection.
Context {A : Type}.

Fixpoint find_one (q : A → bool) (l : list A) : option A :=
  match l with
  | [] => None
  | x :: l' => if q x then Some x else find_one q l'
  end.

Definition find (q : A → bool) (l : list A) : list A :=
  List.filter q l.

(** The collection after [delete_one], with [deleted_count]. *)
Fixpoint delete_one (q : A → bool) (l : list A) : list A * Z :=
  match l with
  | [] => ([], 0)
  | x :: l' =>
      if q x then (l', 1)
      else let '(r, n) := delete_one q l' in (x :: r, n)
  end.

Definition delete_many (q : A → bool) (l : list A) : list A :=
  List.filter (fun x => negb (q x)) l.

(** [update_one(q, {'$set': ...})]: [upd] rewrites the first match. *)
Fixpoint update_one (q : A → bool) (upd : A → A) (l : list A) : list A :=
  match l with
  | [] => []
  | x :: l' => if q x then upd x :: l' else x :: update_one q upd l'
  end.

(** [insert_one] under unique indexes: [clash x y] tells whether the new
    document [x] repeats an indexed key of [y]; [None] stands for
    [DuplicateKeyError]. *)
Definition insert_one (clash : A → A → bool) (x : A) (l : list A)
  : option (list A) :=
  if existsb (clash x) l then None else Some (l ++ [x]).
End Collection.

(** What the driver makes of a value when it writes a document.  A BSON
    date counts milliseconds: the microseconds of a [datetime] are rounded
    down to a whole millisecond, and that is the value read back.  An
    integer must fit 64 bits; the driver raises [OverflowError] on any
    other. *)
Definition bson_datetime (d : datetime) : datetime :=
  mk_datetime (year d) (month d) (day d) (hour d) (minute d) (second d)
    (microsecond d / 1000 * 1000).

Definition bson_encodable (v : pyval) : bool :=
  match v with
  | PInt z => (- 2 ^ 63 <=? z) && (z <? 2 ^ 63)
  | _ => true
  end.


(** ** The application *)

Record db `{Platform} := mk_db {
  users_collection : list User.t;
  tasks_collection : list Task.t;
  sessions_collection : list Session.t
}.

Definition empty_db `{Platform} : db := mk_db _ [] [] [].

(** JSON bodies built by [jsonify]. *)
Inductive body :=
  | BError (error : string)
  | BMessage (message : string)
  | BLogin (token username email : string)
  | BVerify (valid : bool) (user_id : string)
  | BTasks (tasks : list TaskJson.t)
  | BTask (task : TaskJson.t).

Inductive exn := DuplicateKeyError | OverflowError.

(** What a request ends in: a body with its status code, or an exception
    that no handler catches. *)
Inductive outcome :=
  | Response (b : body) (status : Z)
  | Raises (e : exn).

Section App.
Context `{Platform}.

Definition hash_password (password : string) : string :=
  sha256_hexdigest password.

(** Unique indexes: [_id] on every collection, [username] and [email] on
    users, [token] on sessions. *)
Definition users_clash (x y : User.t) : bool :=
  bool_decide (User._id x = User._id y)
  || String.eqb (User.username x) (User.username y)
  || String.eqb (User.email x) (User.email y).

Definition sessions_clash (x y : Session.t) : bool :=
  String.eqb (Session.token x) (Session.token y).

Definition tasks_clash (x y : Task.t) : bool :=
  bool_decide (Task._id x = Task._id y).

Definition by_token (token : string) (s : Session.t) : bool :=
  String.eqb (Session.token s) token.

(** The [verify_token] decorator.  [now] is its reading of
    [datetime.now()]; [authorization] is
    [request.headers.get('Authorization')]; the wrapped handler [f]
    receives [request.user_id]. *)
Definition verify_token (f : string → db → db * outcome)
    (now : datetime) (authorization : option string) (d : db)
  : db * outcome :=
  if falsy_str authorization then
    (d, Response (BError "No token provided") 401)
  else
    let token := str_replace "Bearer " "" (default "" authorization) in
    match find_one (by_token token) (sessions_collection d) with
    | None => (d, Response (BError "Invalid token") 401)
    | Some session =>
        if dt_ltb (Session.expires session) now then
          (mk_db _ (users_collection d) (tasks_collection d)
             (fst (delete_one (by_token token) (sessions_collection d))),
           Response (BError "Token expired") 401)
        else f (Session.user_id session) d
    end.

(** *** Authentication routes

    The bodies of [/api/register] and [/api/login] are JSON objects whose
    fields [username], [password] and [email] hold strings; a field that
    is absent or [null] reads as [None].  Other JSON values at these keys
    are outside this embedding: a number as a password makes
    [hash_password] raise, and an object as a user name reaches the
    driver as a query operator.  What is proved of [register] and [login]
    is proved of requests with string fields. *)

(** [POST /api/register]; [oid] is the [_id] given to the new document
    and [now] the reading of [datetime.now()]. *)
Definition register (oid : ObjectId) (now : datetime)
    (data : gmap string string) (d : db) : db * outcome :=
  match data !! "username", data !! "password", data !! "email" with
  | Some username, Some password, Some email =>
      if String.eqb username "" || String.eqb password ""
         || String.eqb email ""
      then (d, Response (BError "All fields are required") 400)
      else
        match find_one (fun u => String.eqb (User.username u) username
                                 || String.eqb (User.email u) email)
                       (users_collection d) with
        | Some _ =>
            (d, Response (BError "Username or email already exists") 400)
        | None =>
            let user :=
              User.mk _ oid username email (hash_password password)
                (bson_datetime now) in
            match insert_one users_clash user (users_collection d) with
            | None => (d, Raises DuplicateKeyError)
            | Some users =>
                (mk_db _ users (tasks_collection d) (sessions_collection d),
                 Response (BMessage "User registered successfully") 201)
            end
        end
  | _, _, _ => (d, Response (BError "All fields are required") 400)
  end.

(** [POST /api/login]; [token] is the value of [secrets.token_hex(32)]
    and [now] the reading of [datetime.now()]. *)
Definition login (token : string) (now : datetime)
    (data : gmap string string) (d : db) : db * outcome :=
  match data !! "username", data !! "password" with
  | Some username, Some password =>
      if String.eqb username "" || String.eqb password ""
      then (d, Response (BError "Username and password required") 400)
      else
        match find_one (fun u => String.eqb (User.username u) username)
                       (users_collection d) with
        | None => (d, Response (BError "Invalid credentials") 401)
        | Some user =>
            if negb (String.eqb (User.password user)
                                (hash_password password))
            then (d, Response (BError "Invalid credentials") 401)
            else
              let sessions :=
                delete_many
                  (fun s => String.eqb (Session.user_id s) username)
                  (sessions_collection d) in
              let d1 :=
                mk_db _ (users_collection d) (tasks_collection d)
                  sessions in
              match add_24h now with
              | None => (d1, Raises OverflowError)
              | Some expires =>
                  let session :=
                    Session.mk token username (bson_datetime expires) in
                  match insert_one sessions_clash session sessions with
                  | None => (d1, Raises DuplicateKeyError)
                  | Some sessions' =>
                      (mk_db _ (users_collection d) (tasks_collection d)
                         sessions',
                       Response
                         (BLogin token username (User.email user)) 200)
                  end
              end
        end
  | _, _ => (d, Response (BError "Username and password required") 400)
  end.

(** [GET /api/verify], inside the decorator. *)
Definition verify (user_id : string) (d : db) : db * outcome :=
  (d, Response (BVerify true user_id) 200).

(** [POST /api/logout], inside the decorator; the handler reads the
    header a second time. *)
Definition logout (authorization : option string) (user_id : string)
    (d : db) : db * outcome :=
  let token := str_replace "Bearer " "" (default "" authorization) in
  (mk_db _ (users_collection d) (tasks_collection d)
     (fst (delete_one (by_token token) (sessions_collection d))),
   Response (BMessage "Logged out successfully") 200).

(** *** Task routes *)

Definition by_owner (user_id : string) (t : Task.t) : bool :=
  String.eqb (Task.user_id t) user_id.

Definition by_id (oid : ObjectId) (t : Task.t) : bool :=
  bool_decide (Task._id t = oid).

Definition by_id_and_owner (oid : ObjectId) (user_id : string)
    (t : Task.t) : bool :=
  by_id oid t && by_owner user_id t.

(** The formatting applied to a task before [jsonify]. *)
Definition task_json (t : Task.t) : TaskJson.t :=
  TaskJson.mk (Task.title t) (Task.description t) (Task.completed t)
    (Task.user_id t) (Task.due_date t) (Task.due_time t) (Task.category t)
    (isoformat (Task.created_at t)) (isoformat (Task.updated_at t))
    (oid_str (Task._id t)).

(** [GET /api/tasks], inside the decorator. *)
Definition get_tasks (user_id : string) (d : db) : db * outcome :=
  let tasks := find (by_owner user_id) (tasks_collection d) in
  let tasks := map task_json tasks in
  (d, Response (BTasks (sort_desc TaskJson.created_at tasks)) 200).

(** The task document as the collection keeps it: the two timestamps to
    the millisecond. *)
Definition bson_task (t : Task.t) : Task.t :=
  Task.mk _ (Task._id t) (Task.title t) (Task.description t)
    (Task.completed t) (Task.user_id t) (Task.due_date t) (Task.due_time t)
    (Task.category t) (bson_datetime (Task.created_at t))
    (bson_datetime (Task.updated_at t)).

(** Whether the driver can encode the task: the five values taken from the
    request body. *)
Definition task_encodable (t : Task.t) : bool :=
  forallb bson_encodable
    [Task.title t; Task.description t; Task.due_date t; Task.due_time t;
     Task.category t].

(** [POST /api/tasks], inside the decorator; [oid] is the [_id] given to
    the new document, [now1] and [now2] are the two successive readings
    of [datetime.now()] in the task literal.  The answer is built from the
    task literal, not from the stored document. *)
Definition create_task (oid : ObjectId) (now1 now2 : datetime)
    (data : gmap string pyval) (user_id : string) (d : db)
  : db * outcome :=
  let title := data !! "title" in
  let description := default (PStr "") (data !! "description") in
  let due_date := default PNone (data !! "due_date") in
  let due_time := default PNone (data !! "due_time") in
  let category := default (PStr "general") (data !! "category") in
  if falsy_get title then (d, Response (BError "Title is required") 400)
  else
    let task :=
      Task.mk _ oid (default PNone title) description (PBool false)
        user_id due_date due_time category now1 now2 in
    if negb (task_encodable task) then (d, Raises OverflowError)
    else
      match insert_one tasks_clash (bson_task task) (tasks_collection d) with
      | None => (d, Raises DuplicateKeyError)
      | Some tasks =>
          (mk_db _ (users_collection d) tasks (sessions_collection d),
           Response (BTask (task_json task)) 201)
      end.

(** The [$set] document of [update_task] applied to a task: [updated_at]
    always, and each of the six fields when its key is in [data]. *)
Definition update_data (now : datetime) (data : gmap string pyval)
    (t : Task.t) : Task.t :=
  Task.mk _ (Task._id t)
    (default (Task.title t) (data !! "title"))
    (default (Task.description t) (data !! "description"))
    (default (Task.completed t) (data !! "completed"))
    (Task.user_id t)
    (default (Task.due_date t) (data !! "due_date"))
    (default (Task.due_time t) (data !! "due_time"))
    (default (Task.category t) (data !! "category"))
    (Task.created_at t)
    now.

(** Whether the driver can encode the [$set] document: the values of the
    six keys that are in [data]. *)
Definition patch_encodable (data : gmap string pyval) : bool :=
  forallb
    (fun key => match data !! key with
                | Some v => bson_encodable v
                | None => true
                end)
    ["title"; "description"; "completed"; "due_date"; "due_time";
     "category"].

(** [PUT /api/tasks/<task_id>], inside the decorator; [now] is the
    reading of [datetime.now()].  Every exception inside the [try] block
    gives the 400 response: a malformed id, and a [$set] document that the
    driver cannot encode, in which case nothing is written.  The
    collection keeps [updated_at] to the millisecond, and the answer is
    built from the document read back. *)
Definition update_task (task_id : string) (now : datetime)
    (data : gmap string pyval) (user_id : string) (d : db)
  : db * outcome :=
  match oid_parse task_id with
  | None => (d, Response (BError "Invalid task ID") 400)
  | Some oid =>
      match find_one (by_id_and_owner oid user_id) (tasks_collection d) with
      | None => (d, Response (BError "Task not found") 404)
      | Some task =>
          if negb (patch_encodable data)
          then (d, Response (BError "Invalid task ID") 400)
          else
            let tasks :=
              update_one (by_id oid) (update_data (bson_datetime now) data)
                (tasks_collection d) in
            let d' :=
              mk_db _ (users_collection d) tasks (sessions_collection d) in
            match find_one (by_id oid) tasks with
            | None => (d', Response (BError "Invalid task ID") 400)
            | Some updated_task =>
                (d', Response (BTask (task_json updated_task)) 200)
            end
      end
  end.

(** [DELETE /api/tasks/<task_id>], inside the decorator. *)
Definition delete_task (task_id : string) (user_id : string) (d : db)
  : db * outcome :=
  match oid_parse task_id with
  | None => (d, Response (BError "Invalid task ID") 400)
  | Some oid =>
      let '(tasks, deleted_count) :=
        delete_one (by_id_and_owner oid user_id) (tasks_collection d) in
      if deleted_count =? 0
      then (d, Response (BError "Task not found") 404)
      else
        (mk_db _ (users_collection d) tasks (sessions_collection d),
         Response (BMessage "Task deleted successfully") 200)
  end.

(** *** Requests and reachable stores *)

(** One request to the API together with the values its handler draws
    from its surroundings. *)
Inductive call :=
  | Register (oid : ObjectId) (now : datetime) (data : gmap string string)
  | Login (token : string) (now : datetime) (data : gmap string string)
  | Verify (now : datetime) (authorization : option string)
  | Logout (now : datetime) (authorization : option string)
  | GetTasks (now : datetime) (authorization : option string)
  | CreateTask (now : datetime) (authorization : option string)
      (oid : ObjectId) (now1 now2 : datetime) (data : gmap string pyval)
  | UpdateTask (now : datetime) (authorization : option string)
      (task_id : string) (now1 : datetime) (data : gmap string pyval)
  | DeleteTask (now : datetime) (authorization : option string)
      (task_id : string).

Definition run (c : call) (d : db) : db * outcome :=
  match c with
  | Register oid now data => register oid now data d
  | Login token now data => login token now data d
  | Verify now a => verify_token verify now a d
  | Logout now a => verify_token (logout a) now a d
  | GetTasks now a => verify_token get_tasks now a d
  | CreateTask now a oid now1 now2 data =>
      verify_token (create_task oid now1 now2 data) now a d
  | UpdateTask now a task_id now1 data =>
      verify_token (update_task task_id now1 data) now a d
  | DeleteTask now a task_id =>
      verify_token (delete_task task_id) now a d
  end.

(** The shape of [secrets.token_hex(nbytes)]: [2 * nbytes] lower-case
    hexadecimal digits. *)
Definition is_hex_lower (c : ascii) : bool :=
  let n := N_of_ascii c in
  ((48 <=? n) && (n <=? 57) || (97 <=? n) && (n <=? 102))%N.

Definition token_hex_shape (nbytes : nat) (s : string) : bool :=
  Nat.eqb (String.length s) (2 * nbytes)
  && forallb is_hex_lower (list_ascii_of_string s).

(** What the surroundings guarantee for a request: clock readings are
    datetimes and a login token comes from [secrets.token_hex(32)]. *)
Definition env_ok (c : call) : bool :=
  match c with
  | Register _ now _ => dt_valid now
  | Login token now _ => token_hex_shape 32 token && dt_valid now
  | Verify now _ | Logout now _ | GetTasks now _
  | DeleteTask now _ _ => dt_valid now
  | CreateTask now _ _ now1 now2 _ =>
      dt_valid now && dt_valid now1 && dt_valid now2
  | UpdateTask now _ _ now1 _ => dt_valid now && dt_valid now1
  end.

(** The stores the application can be in: those obtained from the empty
    database by a sequence of requests. *)
Inductive reachable : db → Prop :=
  | reachable_empty : reachable empty_db
  | reachable_step c d :
      reachable d → env_ok c = true → reachable (fst (run c d)).

(** The store after a sequence of requests. *)
Definition run_all (cs : list call) (d : db) : db :=
  fold_left (fun d c => fst (run c d)) cs d.

(** Whether the request draws [token] from [secrets.token_hex]. *)
Definition issues (token : string) (c : call) : bool :=
  match c with
  | Login token' _ _ => String.eqb token' token
  | _ => false
  end.




Definition is_register (c : call) : bool :=
  match c with
  | Register _ _ _ => true
  | _ => false
  end.

(** The two ways a client can carry [token] in the [Authorization]
    header. *)
Definition presents (authorization : option string) (token : string)
  : Prop :=
  authorization = Some ("Bearer " +:+ token) ∨ authorization = Some token.

(** What holds of every reachable store: the unique indexes, one session
    per user, well-shaped tokens, non-empty user names and proper
    creation times. *)
Record wf (d : db) : Prop := mk_wf {
  wf_task_ids : NoDup (map Task._id (tasks_collection d));
  wf_tokens : NoDup (map Session.token (sessions_collection d));
  wf_one_session : NoDup (map Session.user_id (sessions_collection d));
  wf_token_shape :
    Forall (fun s => token_hex_shape 32 (Session.token s) = true)
      (sessions_collection d);
  wf_usernames : NoDup (map User.username (users_collection d));
  wf_username_nonempty :
    Forall (fun u => User.username u ≠ "") (users_collection d);
  wf_created_at :
    Forall (fun t => dt_valid (Task.created_at t) = true)
      (tasks_collection d)
}.

(** The token a protected request is looked up under: its
    [Authorization] header after the decorator's [replace].  The two
    public routes do not read the header. *)
Definition presented (c : call) : option string :=
  match c with
  | Register _ _ _ | Login _ _ _ => None
  | Verify _ a | Logout _ a | GetTasks _ a | CreateTask _ a _ _ _ _
  | UpdateTask _ a _ _ _ | DeleteTask _ a _ =>
      Some (str_replace "Bearer " "" (default "" a))
  end.

(** Whether a request is a login. *)
Definition is_login (c : call) : bool :=
  match c with
  | Login _ _ _ => true
  | _ => false
  end.

(** A task of the new store either continues a task of the old one, with
    its [_id], owner and creation time, or is new and owned by the
    caller. *)
Definition continues (user_id : string) (old : list Task.t) (t' : Task.t)
  : Prop :=
  (∃ x, In x old ∧ Task._id x = Task._id t'
        ∧ Task.user_id x = Task.user_id t'
        ∧ Task.created_at x = Task.created_at t')
  ∨ ((∀ x, In x old → Task._id x ≠ Task._id t')
     ∧ Task.user_id t' = user_id).

End App.

(** ** A platform to evaluate the handlers on

    An [ObjectId] is a number printed as 24 hexadecimal digits, and the
    digest is a stand-in that keeps its argument readable; the handlers
    only ever compare digests. *)

Module Demo.

Definition hex_digit (n : N) : ascii :=
  if (n <? 10)%N then ascii_of_N (48 + n) else ascii_of_N (87 + n).

Fixpoint hex_pad (w : nat) (n : N) : string :=
  match w with
  | O => EmptyString
  | S w' => String (hex_digit ((n / 16 ^ N.of_nat w') mod 16)%N)
                   (hex_pad w' n)
  end.

Definition hex_value (c : ascii) : option N :=
  let n := N_of_ascii c in
  if ((48 <=? n) && (n <=? 57))%N then Some (n - 48)%N
  else if ((97 <=? n) && (n <=? 102))%N then Some (n - 87)%N
  else if ((65 <=? n) && (n <=? 70))%N then Some (n - 55)%N
  else None.

Fixpoint hex_parse (acc : N) (s : string) : option N :=
  match s with
  | EmptyString => Some acc
  | String c s' =>
      match hex_value c with
      | None => None
      | Some v => hex_parse (16 * acc + v)%N s'
      end
  end.

Definition parse24 (s : string) : option N :=
  if Nat.eqb (String.length s) 24 then hex_parse 0%N s else None.

#[export] Instance platform : Platform := {|
  ObjectId := N;
  oid_str := hex_pad 24;
  oid_parse := parse24;
  sha256_hexdigest := fun s => "sha256:" +:+ s
|}.

Definition at_time (h m : Z) : datetime := mk_datetime 2024 1 1 h m 0 0.

Definition alice_token : string :=
  "a1a1a1a1a1a1a1a1a1a1a1a1a1a1a1a1a1a1a1a1a1a1a1a1a1a1a1a1a1a1a1a1".
Definition bob_token : string :=
  "b2b2b2b2b2b2b2b2b2b2b2b2b2b2b2b2b2b2b2b2b2b2b2b2b2b2b2b2b2b2b2b2".
Definition spare_token : string :=
  "c3c3c3c3c3c3c3c3c3c3c3c3c3c3c3c3c3c3c3c3c3c3c3c3c3c3c3c3c3c3c3c3".

Definition bearer (token : string) : option string :=
  Some ("Bearer " +:+ token).

Definition alice_credentials : gmap string string :=
  {[ "username" := "alice"; "email" := "a@x.com"; "password" := "pw" ]}.
Definition bob_credentials : gmap string string :=
  {[ "username" := "bob"; "email" := "b@x.com"; "password" := "hunter2" ]}.

Definition title_only (title : string) : gmap string pyval :=
  {[ "title" := PStr title ]}.

(** Two users register and log in; alice creates three tasks, bob one. *)
Definition history : list call := [
  Register 1%N (at_time 9 0) alice_credentials;
  Register 2%N (at_time 9 1) bob_credentials;
  Login alice_token (at_time 9 2) alice_credentials;
  Login bob_token (at_time 9 3) bob_credentials;
  CreateTask (at_time 9 4) (bearer alice_token) 16%N
    (at_time 9 4) (at_time 9 4) (title_only "buy milk");
  CreateTask (at_time 9 5) (bearer alice_token) 17%N
    (at_time 9 5) (at_time 9 5) (title_only "write report");
  CreateTask (at_time 9 6) (bearer bob_token) 18%N
    (at_time 9 6) (at_time 9 6) (title_only "call home");
  CreateTask (at_time 9 7) (bearer alice_token) 19%N
    (at_time 9 7) (at_time 9 7) (title_only "pay rent")
].

Definition store : db := Eval vm_compute in run_all history empty_db.

Definition alice_session : Session.t :=
  Session.mk alice_token "alice" (mk_datetime 2024 1 2 9 2 0 0).
Definition bob_session : Session.t :=
  Session.mk bob_token "bob" (mk_datetime 2024 1 2 9 3 0 0).

Definition milk : Task.t :=
  Task.mk _ 16%N (PStr "buy milk") (PStr "") (PBool false) "alice"
    PNone PNone (PStr "general") (at_time 9 4) (at_time 9 4).
Definition report : Task.t :=
  Task.mk _ 17%N (PStr "write report") (PStr "") (PBool false) "alice"
    PNone PNone (PStr "general") (at_time 9 5) (at_time 9 5).
Definition home : Task.t :=
  Task.mk _ 18%N (PStr "call home") (PStr "") (PBool false) "bob"
    PNone PNone (PStr "general") (at_time 9 6) (at_time 9 6).
Definition rent : Task.t :=
  Task.mk _ 19%N (PStr "pay rent") (PStr "") (PBool false) "alice"
    PNone PNone (PStr "general") (at_time 9 7) (at_time 9 7).

Definition alice_user : User.t :=
  User.mk _ 1%N "alice" "a@x.com" "sha256:pw" (at_time 9 0).
Definition bob_user : User.t :=
  User.mk _ 2%N "bob" "b@x.com" "sha256:hunter2" (at_time 9 1).

(** An [_id] that no document of the store carries. *)
Definition new_id : ObjectId := 20%N.

(** The [str] of the [_id] of [milk]. *)
Definition milk_id : string := "000000000000000000000010".

Definition fresh_token : string :=
  "d4d4d4d4d4d4d4d4d4d4d4d4d4d4d4d4d4d4d4d4d4d4d4d4d4d4d4d4d4d4d4d4".

(** Alice logs in again, bob lists his tasks, alice logs in once more. *)
Definition store1 : db :=
  Eval vm_compute in
    fst (login spare_token (at_time 10 0) alice_credentials store).
Definition between : list call := [GetTasks (at_time 10 1) (bearer bob_token)].
Definition store2 : db :=
  Eval vm_compute in
    fst (login fresh_token (at_time 10 2) alice_credentials
           (run_all between store1)).

(** Bob creates a task on the store. *)
Definition bob_errand : Task.t :=
  Task.mk _ new_id (PStr "post letter") (PStr "") (PBool false) "bob"
    PNone PNone (PStr "general") (at_time 10 0) (at_time 10 0).
Definition bob_creates : call :=
  CreateTask (at_time 10 0) (bearer bob_token) new_id
    (at_time 10 0) (at_time 10 0) (title_only "post letter").
Definition store3 : db :=
  Eval vm_compute in fst (run bob_creates store).

(** Alice rewrites the title of her task "buy milk"; the patch also names
    keys that the handler does not read. *)
Definition milk_patch : gmap string pyval :=
  {[ "title" := PStr "buy oat milk"; "user_id" := PStr "bob" ]}.
Definition alice_updates : call :=
  UpdateTask (at_time 10 0) (bearer alice_token) milk_id (at_time 10 0)
    milk_patch.
Definition milk_updated : Task.t :=
  Task.mk _ 16%N (PStr "buy oat milk") (PStr "") (PBool false) "alice"
    PNone PNone (PStr "general") (at_time 9 4) (at_time 10 0).

(** Carol registers. *)
Definition carol_id : ObjectId := 3%N.
Definition carol_credentials : gmap string string :=
  {[ "username" := "carol"; "email" := "c@x.com"; "password" := "s3cret" ]}.
Definition store4 : db :=
  Eval vm_compute in
    fst (register carol_id (at_time 10 0) carol_credentials store).



End Demo.

(** ** The built-ins on concrete inputs *)

Example str_replace_prefix : str_replace "Bearer " "" "Bearer abc" = "abc".
Proof. reflexivity. Qed.

Example str_replace_everywhere :
  str_replace "Bearer " "" "xBearer yBearer z" = "xyz".
Proof. reflexivity. Qed.

Example str_replace_left_to_right : str_replace "aa" "b" "aaa" = "ba".
Proof. reflexivity. Qed.

Example truthy_values :
  map truthy [PNone; PBool false; PInt 0; PStr ""; PStr "0"; PInt 7;
              PFloat (S754_zero true); PFloat S754_nan]
  = [false; false; false; false; true; true; false; true].
Proof. reflexivity. Qed.

Example isoformat_whole_second :
  isoformat (mk_datetime 2024 3 9 7 5 0 0) = "2024-03-09T07:05:00".
Proof. reflexivity. Qed.

Example isoformat_microseconds :
  isoformat (mk_datetime 2024 3 9 7 5 0 1500) = "2024-03-09T07:05:00.001500".
Proof. reflexivity. Qed.

Example add_24h_leap_day :
  add_24h (mk_datetime 2024 2 28 7 5 0 0)
  = Some (mk_datetime 2024 2 29 7 5 0 0).
Proof. reflexivity. Qed.

Example add_24h_year_end :
  add_24h (mk_datetime 2023 12 31 23 59 59 999999)
  = Some (mk_datetime 2024 1 1 23 59 59 999999).
Proof. reflexivity. Qed.

Example add_24h_overflow :
  add_24h (mk_datetime 9999 12 31 0 0 0 0) = None.
Proof. reflexivity. Qed.

Example sort_desc_strings :
  sort_desc (fun x => x) ["b"; "a"; "c"; "ab"] = ["c"; "b"; "ab"; "a"].
Proof. reflexivity. Qed.

Example sort_desc_stable :
  sort_desc fst [("k", 1); ("m", 2); ("k", 3); ("m", 4)]
  = [("m", 2); ("m", 4); ("k", 1); ("k", 3)].
Proof. reflexivity. Qed.

Example oid_parse_upper_case :
  Demo.parse24 "00000000000000000000001A" = Some 26%N
  ∧ Demo.parse24 "1a" = None
  ∧ Demo.parse24 "00000000000000000000001g" = None.
Proof. repeat split; reflexivity. Qed.

(** ** Properties of the built-ins *)

Section CollectionFacts.
Context {A : Type}.
Implicit Types (q : A → bool) (l : list A).

Lemma find_one_Some q l x :
  find_one q l = Some x → In x l ∧ q x = true.
Proof.
  induction l as [|y l IH]; simpl; [discriminate|].
  destruct (q y) eqn:Hy.
  - intros [= ->]. auto.
  - intros Hx. destruct (IH Hx). auto.
Qed.

Lemma find_one_None q l :
  find_one q l = None ↔ ∀ x, In x l → q x = false.
Proof.
  induction l as [|y l IH]; simpl.
  - split; [intros _ x []|auto].
  - destruct (q y) eqn:Hy.
    + split; [discriminate|]. intros Hall.
      rewrite (Hall y) in Hy by auto. discriminate.
    + rewrite IH. split.
      * intros Hall x [<-|Hx]; auto.
      * intros Hall x Hx. auto.
Qed.

(** With a key that no two documents share, the document found is the
    only one carrying its key. *)
Lemma find_one_unique {K} (key : A → K) q l x :
  NoDup (map key l) → In x l → q x = true →
  (∀ y, q y = true → key y = key x) →
  find_one q l = Some x.
Proof.
  induction l as [|y l IH]; simpl; [intros _ []|].
  intros Hnd Hin Hq Hkey. apply NoDup_cons in Hnd as [Hy Hnd].
  destruct Hin as [->|Hin].
  - rewrite Hq. reflexivity.
  - destruct (q y) eqn:Hqy; [|auto]. exfalso. apply Hy.
    rewrite (Hkey y Hqy). apply list_elem_of_In, in_map, Hin.
Qed.

Lemma delete_one_none q l :
  (∀ x, In x l → q x = false) → delete_one q l = (l, 0).
Proof.
  induction l as [|y l IH]; simpl; [reflexivity|]. intros Hall.
  rewrite (Hall y) by auto. rewrite IH by auto. reflexivity.
Qed.

Lemma delete_one_In q l x :
  In x (fst (delete_one q l)) → In x l.
Proof.
  induction l as [|y l IH]; simpl; [auto|].
  destruct (q y); simpl; [auto|].
  destruct (delete_one q l) as [r n]; simpl in *.
  intros [->|Hx]; auto.
Qed.

Lemma delete_one_sublist q l : sublist (fst (delete_one q l)) l.
Proof.
  induction l as [|y l IH]; simpl; [constructor|].
  destruct (q y); simpl; [by constructor|].
  destruct (delete_one q l) as [r n]; simpl in *. by constructor.
Qed.

Lemma delete_many_sublist q l : sublist (delete_many q l) l.
Proof.
  unfold delete_many.
  induction l as [|y l IH]; simpl; [constructor|].
  destruct (negb (q y)); by constructor.
Qed.

Lemma delete_many_In q l x :
  In x (delete_many q l) ↔ In x l ∧ q x = false.
Proof.
  unfold delete_many. rewrite filter_In, negb_true_iff. reflexivity.
Qed.

Lemma NoDup_map_sublist {K} (key : A → K) l l' :
  sublist l' l → NoDup (map key l) → NoDup (map key l').
Proof.
  intros Hsub Hnd. eapply sublist_NoDup; [exact Hnd|]. clear Hnd.
  induction Hsub; simpl.
  - apply sublist_nil.
  - by apply sublist_skip.
  - by apply sublist_cons.
Qed.

Lemma Forall_sublist_list (P : A → Prop) l l' :
  sublist l' l → Forall P l → Forall P l'.
Proof.
  intros Hsub Hall. induction Hsub as [|y l1 l2 Hsub IH|y l1 l2 Hsub IH].
  - constructor.
  - apply Forall_cons in Hall as [Hy Hall]. constructor; auto.
  - apply Forall_cons in Hall as [Hy Hall]. auto.
Qed.

Lemma update_one_map {K} (key : A → K) q upd l :
  (∀ x, key (upd x) = key x) →
  map key (update_one q upd l) = map key l.
Proof.
  intros Hkey. induction l as [|y l IH]; simpl; [reflexivity|].
  destruct (q y); simpl; [by rewrite Hkey|by rewrite IH].
Qed.

Lemma update_one_Forall (P : A → Prop) q upd l :
  (∀ x, P x → P (upd x)) → Forall P l → Forall P (update_one q upd l).
Proof.
  intros Hupd. induction 1 as [|y l Hy Hl IH]; simpl; [constructor|].
  destruct (q y); constructor; auto.
Qed.

Lemma insert_one_Some clash x l l' :
  insert_one clash x l = Some l' →
  l' = l ++ [x] ∧ ∀ y, In y l → clash x y = false.
Proof.
  unfold insert_one. destruct (existsb (clash x) l) eqn:Hex; [discriminate|].
  intros [= <-]. split; [reflexivity|]. intros y Hy.
  destruct (clash x y) eqn:Hc; [|reflexivity].
  assert (existsb (clash x) l = true) by (apply existsb_exists; eauto).
  congruence.
Qed.

Lemma insert_one_fresh clash x l :
  (∀ y, In y l → clash x y = false) →
  insert_one clash x l = Some (l ++ [x]).
Proof.
  intros Hall. unfold insert_one.
  destruct (existsb (clash x) l) eqn:Hex; [|reflexivity].
  apply existsb_exists in Hex as (y & Hy & Hc).
  rewrite Hall in Hc by assumption. discriminate.
Qed.

Lemma NoDup_map_snoc {K} (key : A → K) l x :
  NoDup (map key l) → (∀ y, In y l → key y ≠ key x) →
  NoDup (map key (l ++ [x])).
Proof.
  intros Hnd Hfresh. rewrite map_app. simpl.
  apply NoDup_app. split_and!; [assumption| |apply NoDup_singleton].
  intros k Hk Hk'. apply list_elem_of_singleton in Hk'. subst k.
  apply list_elem_of_In, in_map_iff in Hk as (y & Heq & Hy).
  by apply (Hfresh y).
Qed.
End CollectionFacts.

Section StringFacts.

Lemma replace_from_cons old new c s :
  replace_from old new 0 (String c s) =
  if starts_with old (String c s)
  then new +:+ replace_from old new (Nat.pred (String.length old)) s
  else String c (replace_from old new 0 s).
Proof. reflexivity. Qed.

Lemma starts_with_cons a p b s :
  starts_with (String a p) (String b s) = Ascii.eqb a b && starts_with p s.
Proof. reflexivity. Qed.

Lemma replace_Bearer_prefix s :
  str_replace "Bearer " "" ("Bearer " +:+ s) = str_replace "Bearer " "" s.
Proof.
  unfold str_replace, String.app. simpl. destruct s; reflexivity.
Qed.

Lemma replace_without_B s :
  forallb (fun c => negb (Ascii.eqb c "B")) (list_ascii_of_string s) = true →
  str_replace "Bearer " "" s = s.
Proof.
  unfold str_replace. induction s as [|c s IH]; [reflexivity|].
  intros [Hc Hs]%andb_true_iff. apply negb_true_iff, Ascii.eqb_neq in Hc.
  rewrite replace_from_cons, starts_with_cons.
  assert (Ascii.eqb "B" c = false) as -> by (apply Ascii.eqb_neq; congruence).
  simpl. f_equal. exact (IH Hs).
Qed.

Lemma hex_lower_not_B c :
  is_hex_lower c = true → negb (Ascii.eqb c "B") = true.
Proof.
  intros Hc. apply negb_true_iff, Ascii.eqb_neq. intros ->.
  vm_compute in Hc. discriminate.
Qed.

Lemma token_hex_without_B n s :
  token_hex_shape n s = true →
  forallb (fun c => negb (Ascii.eqb c "B")) (list_ascii_of_string s) = true.
Proof.
  intros [_ Hs]%andb_true_iff. rewrite forallb_forall in *.
  intros c Hc. apply hex_lower_not_B; auto.
Qed.

(** A token from [secrets.token_hex] passes through the decorator's
    [replace] unchanged, with or without the [Bearer ] prefix. *)
Lemma token_hex_replace n s :
  token_hex_shape n s = true →
  str_replace "Bearer " "" s = s ∧
  str_replace "Bearer " "" ("Bearer " +:+ s) = s.
Proof.
  intros Hs. apply token_hex_without_B, replace_without_B in Hs.
  by rewrite replace_Bearer_prefix, Hs.
Qed.

Lemma token_hex_nonempty s : token_hex_shape 32 s = true → s ≠ "".
Proof. intros Hs ->. vm_compute in Hs. discriminate. Qed.

End StringFacts.

(** ** The precision of stored dates *)

Section BsonFacts.

Lemma bson_microsecond_bounds us :
  0 ≤ us < 1000000 →
  0 ≤ us / 1000 * 1000 < 1000000 ∧ us / 1000 * 1000 ≤ us.
Proof. intros Hus. Z.to_euclidean_division_equations. lia. Qed.

Lemma bson_datetime_valid d :
  dt_valid d = true → dt_valid (bson_datetime d) = true.
Proof.
  unfold dt_valid, bson_datetime. simpl. intros Hd.
  repeat (apply andb_true_iff in Hd as [Hd ?]).
  assert (0 ≤ microsecond d < 1000000) as Hus%bson_microsecond_bounds by lia.
  repeat (apply andb_true_iff; split); try assumption; lia.
Qed.

(** A whole number of milliseconds is kept as it is. *)
Lemma bson_datetime_whole d :
  microsecond d mod 1000 = 0 → bson_datetime d = d.
Proof.
  intros Hms. destruct d as [y m dd h mi sec us]. unfold bson_datetime.
  simpl in *. f_equal. Z.to_euclidean_division_equations. lia.
Qed.

Lemma bson_datetime_idem d : bson_datetime (bson_datetime d) = bson_datetime d.
Proof.
  apply bson_datetime_whole. simpl. apply Z.mod_mul. lia.
Qed.


End BsonFacts.

(** ** Invariants of the store *)

Section Invariants.
Context `{Platform}.
Implicit Types (d : db).

Lemma wf_empty : wf empty_db.
Proof. split; simpl; constructor. Qed.

(** Dropping sessions keeps the invariant. *)
Lemma wf_sessions_sublist d sessions :
  wf d → sublist sessions (sessions_collection d) →
  wf (mk_db _ (users_collection d) (tasks_collection d) sessions).
Proof.
  intros [] Hsub. split; simpl; try assumption.
  - by eapply NoDup_map_sublist.
  - by eapply NoDup_map_sublist.
  - by eapply Forall_sublist_list.
Qed.

Lemma wf_tasks_sublist d tasks :
  wf d → sublist tasks (tasks_collection d) →
  wf (mk_db _ (users_collection d) tasks (sessions_collection d)).
Proof.
  intros [] Hsub. split; simpl; try assumption.
  - by eapply NoDup_map_sublist.
  - by eapply Forall_sublist_list.
Qed.

Lemma register_wf oid now data d :
  wf d → wf (fst (register oid now data d)).
Proof.
  intros Hwf. unfold register.
  destruct (data !! "username") as [username|]; [|assumption].
  destruct (data !! "password") as [password|]; [|assumption].
  destruct (data !! "email") as [email|]; [|assumption].
  destruct (_ || _) eqn:Hempty; [assumption|].
  destruct (find_one _ _) eqn:Hfind; [assumption|].
  destruct (insert_one _ _ _) as [users|] eqn:Hins; [|assumption].
  apply insert_one_Some in Hins as [-> _]. simpl.
  rewrite find_one_None in Hfind.
  apply orb_false_iff in Hempty as [[Hu _]%orb_false_iff _].
  destruct Hwf. split; simpl; try assumption.
  - apply NoDup_map_snoc; [assumption|]. simpl. intros y Hy Heq.
    specialize (Hfind y Hy). apply orb_false_iff in Hfind as [Hne _].
    apply String.eqb_neq in Hne. contradiction.
  - apply Forall_app. split; [assumption|]. constructor; [|constructor].
    simpl. by apply String.eqb_neq.
Qed.

Lemma login_wf token now data d :
  token_hex_shape 32 token = true →
  wf d → wf (fst (login token now data d)).
Proof.
  intros Htok Hwf. unfold login.
  destruct (data !! "username") as [username|]; [|assumption].
  destruct (data !! "password") as [password|]; [|assumption].
  destruct (_ || _); [assumption|].
  destruct (find_one _ _) as [user|]; [|assumption].
  destruct (negb _); [assumption|].
  set (sessions := delete_many _ _).
  assert (Hd1 : wf (mk_db _ (users_collection d) (tasks_collection d)
                      sessions))
    by (apply wf_sessions_sublist, delete_many_sublist; assumption).
  destruct (add_24h now) as [expires|]; [|assumption].
  destruct (insert_one _ _ _) as [sessions'|] eqn:Hins; [|assumption].
  apply insert_one_Some in Hins as [-> Hfresh]. simpl.
  destruct Hd1; simpl in *. split; simpl; try assumption.
  - apply NoDup_map_snoc; [assumption|]. simpl. intros y Hy Heq.
    specialize (Hfresh y Hy). unfold sessions_clash in Hfresh. simpl in Hfresh.
    apply String.eqb_neq in Hfresh. congruence.
  - apply NoDup_map_snoc; [assumption|]. simpl. intros y Hy Heq.
    apply delete_many_In in Hy as [_ Hy].
    apply String.eqb_neq in Hy. contradiction.
  - apply Forall_app. split; [assumption|]. by repeat constructor.
Qed.

(** The decorator keeps the invariant when the wrapped handler does. *)
Lemma verify_token_wf f now a d :
  (∀ user_id, wf d → wf (fst (f user_id d))) →
  wf d → wf (fst (verify_token f now a d)).
Proof.
  intros Hf Hwf. unfold verify_token.
  destruct (falsy_str a); [assumption|].
  destruct (find_one _ _) as [session|]; [|assumption].
  destruct (dt_ltb _ _); [|by apply Hf].
  simpl. apply wf_sessions_sublist, delete_one_sublist. assumption.
Qed.

Lemma logout_wf a user_id d : wf d → wf (fst (logout a user_id d)).
Proof.
  intros Hwf. simpl. apply wf_sessions_sublist, delete_one_sublist.
  assumption.
Qed.

Lemma create_task_wf oid now1 now2 data user_id d :
  dt_valid now1 = true →
  wf d → wf (fst (create_task oid now1 now2 data user_id d)).
Proof.
  intros Hnow Hwf. unfold create_task.
  destruct (falsy_get _); [assumption|].
  destruct (negb _); [assumption|].
  destruct (insert_one _ _ _) as [tasks|] eqn:Hins; [|assumption].
  apply insert_one_Some in Hins as [-> Hfresh]. simpl.
  destruct Hwf. split; simpl; try assumption.
  - apply NoDup_map_snoc; [assumption|]. simpl. intros y Hy Heq.
    specialize (Hfresh y Hy). unfold tasks_clash in Hfresh. simpl in Hfresh.
    apply bool_decide_eq_false in Hfresh. congruence.
  - apply Forall_app. split; [assumption|].
    constructor; [|constructor]. simpl. by apply bson_datetime_valid.
Qed.

Lemma update_task_wf task_id now data user_id d :
  wf d → wf (fst (update_task task_id now data user_id d)).
Proof.
  intros Hwf. unfold update_task.
  destruct (oid_parse task_id) as [oid|]; [|assumption].
  destruct (find_one _ _) as [task|]; [|assumption].
  destruct (negb _); [assumption|].
  assert (wf (mk_db _ (users_collection d)
                (update_one (by_id oid)
                   (update_data (bson_datetime now) data)
                   (tasks_collection d))
                (sessions_collection d))).
  { destruct Hwf. split; simpl; try assumption.
    - by rewrite update_one_map.
    - apply update_one_Forall; [|assumption]. auto. }
  destruct (find_one _ _); assumption.
Qed.

Lemma delete_task_wf task_id user_id d :
  wf d → wf (fst (delete_task task_id user_id d)).
Proof.
  intros Hwf. unfold delete_task.
  destruct (oid_parse task_id) as [oid|]; [|assumption].
  pose proof (delete_one_sublist (by_id_and_owner oid user_id)
                (tasks_collection d)) as Hsub.
  destruct (delete_one _ _) as [tasks n]. simpl in Hsub.
  destruct (n =? 0); [assumption|]. simpl. by apply wf_tasks_sublist.
Qed.

Lemma run_wf c d : env_ok c = true → wf d → wf (fst (run c d)).
Proof.
  destruct c; simpl; intros Henv Hwf.
  - by apply register_wf.
  - apply andb_true_iff in Henv as [Htok _]. by apply login_wf.
  - by apply verify_token_wf.
  - apply verify_token_wf; [|assumption]. intros. by apply logout_wf.
  - by apply verify_token_wf.
  - apply andb_true_iff in Henv as [[_ Hnow1]%andb_true_iff _].
    apply verify_token_wf; [|assumption]. intros. by apply create_task_wf.
  - apply verify_token_wf; [|assumption]. intros. by apply update_task_wf.
  - apply verify_token_wf; [|assumption]. intros. by apply delete_task_wf.
Qed.

Lemma reachable_wf d : reachable d → wf d.
Proof.
  induction 1 as [|c d Hd IH Henv]; [apply wf_empty|by apply run_wf].
Qed.
End Invariants.

(** ** String order and the stable descending sort *)

Section OrderFacts.

Lemma ascii_compare_refl a : Ascii.compare a a = Eq.
Proof. apply N.compare_refl. Qed.

Lemma ascii_compare_lt_trans a b c :
  Ascii.compare a b = Lt → Ascii.compare b c = Lt → Ascii.compare a c = Lt.
Proof.
  unfold Ascii.compare. rewrite !N.compare_lt_iff. apply N.lt_trans.
Qed.

Lemma string_compare_lt_trans s1 s2 s3 :
  String.compare s1 s2 = Lt → String.compare s2 s3 = Lt →
  String.compare s1 s3 = Lt.
Proof.
  revert s2 s3. induction s1 as [|a s1 IH]; intros [|b s2] [|c s3]; simpl;
    try discriminate; try reflexivity.
  destruct (Ascii.compare a b) eqn:Hab; try discriminate;
    destruct (Ascii.compare b c) eqn:Hbc; try discriminate; intros H12 H23.
  - apply Ascii.compare_eq_iff in Hab, Hbc. subst.
    rewrite ascii_compare_refl. eauto.
  - apply Ascii.compare_eq_iff in Hab. subst. by rewrite Hbc.
  - apply Ascii.compare_eq_iff in Hbc. subst. by rewrite Hab.
  - by rewrite (ascii_compare_lt_trans a b c).
Qed.

Lemma string_ltb_trans s1 s2 s3 :
  String.ltb s1 s2 = true → String.ltb s2 s3 = true →
  String.ltb s1 s3 = true.
Proof.
  unfold String.ltb. intros H12 H23.
  rewrite (string_compare_lt_trans s1 s2 s3); [reflexivity| |].
  - by destruct (String.compare s1 s2).
  - by destruct (String.compare s2 s3).
Qed.

Lemma string_ltb_asym s1 s2 :
  String.ltb s1 s2 = true → String.ltb s2 s1 = false.
Proof.
  unfold String.ltb. rewrite (String.compare_antisym s1 s2).
  by destruct (String.compare s2 s1).
Qed.

Context {A : Type} (key : A → string).

Lemma insert_desc_perm x l : insert_desc key x l ≡ₚ x :: l.
Proof.
  induction l as [|y l IH]; simpl; [reflexivity|].
  destruct (String.ltb (key y) (key x)); [reflexivity|].
  rewrite IH. apply perm_swap.
Qed.



Lemma insert_desc_sorted x l :
  StronglySorted (not_below key) l → StronglySorted (not_below key) (insert_desc key x l).
Proof.
  induction 1 as [|y l Hl IH Hy]; simpl.
  - repeat constructor.
  - destruct (String.ltb (key y) (key x)) eqn:Hyx.
    + constructor; [by constructor|]. constructor.
      * by apply string_ltb_asym.
      * eapply Forall_impl; [exact Hy|]. intros z Hyz. unfold not_below in *.
        destruct (String.ltb (key x) (key z)) eqn:Hxz; [|reflexivity].
        by rewrite (string_ltb_trans _ _ _ Hyx Hxz) in Hyz.
    + constructor; [assumption|].
      rewrite insert_desc_perm. by constructor.
Qed.



End OrderFacts.

(** ** [isoformat] keeps the order of datetimes *)

Section IsoformatFacts.














End IsoformatFacts.

(** ** The decorator on a well-formed store *)

Section GateFacts.
Context `{Platform}.
Implicit Types (d : db) (s : Session.t).

Lemma NoDup_map_In_inj {A K} (key : A → K) (l : list A) x y :
  NoDup (map key l) → In x l → In y l → key x = key y → x = y.
Proof.
  induction l as [|z l IH]; simpl; [intros _ []|].
  intros [Hz Hnd]%NoDup_cons [->|Hx] [->|Hy] Heq; auto.
  - exfalso. apply Hz. rewrite Heq. by apply list_elem_of_In, in_map.
  - exfalso. apply Hz. rewrite <- Heq. by apply list_elem_of_In, in_map.
Qed.

Lemma delete_one_keeps {A} (q : A → bool) (l : list A) x :
  In x l → q x = false → In x (fst (delete_one q l)).
Proof.
  induction l as [|y l IH]; simpl; [auto|]. intros Hx Hq.
  destruct (q y) eqn:Hy; simpl.
  - destruct Hx as [->|Hx]; [congruence|assumption].
  - destruct (delete_one q l) as [r n]; simpl in *.
    destruct Hx as [->|Hx]; auto.
Qed.

(** Under a unique key, [delete_one] leaves no match behind. *)
Lemma delete_one_unique_gone {A K} (key : A → K) (q : A → bool) l :
  (∀ y z, q y = true → q z = true → key y = key z) →
  NoDup (map key l) →
  ∀ y, In y (fst (delete_one q l)) → q y = false.
Proof.
  intros Hq. induction l as [|x l IH]; simpl; [intros _ y []|].
  intros [Hx Hnd]%NoDup_cons y. destruct (q x) eqn:Hqx; simpl.
  - intros Hy. destruct (q y) eqn:Hqy; [|reflexivity].
    exfalso. apply Hx. rewrite (Hq x y Hqx Hqy).
    by apply list_elem_of_In, in_map.
  - destruct (delete_one q l) as [r n]; simpl in *.
    intros [<-|Hy]; auto.
Qed.

Lemma presents_header a token :
  token_hex_shape 32 token = true → presents a token →
  falsy_str a = false ∧ str_replace "Bearer " "" (default "" a) = token.
Proof.
  intros Htok [-> | ->]; simpl.
  - split; [reflexivity|]. by apply (token_hex_replace 32).
  - split; [|by apply (token_hex_replace 32)].
    apply String.eqb_neq. by apply token_hex_nonempty.
Qed.

(** A presented token that belongs to a stored session: the decorator
    either evicts the expired session or runs the handler under the
    session's [user_id]. *)
Lemma verify_token_session f now a d s :
  wf d → In s (sessions_collection d) → presents a (Session.token s) →
  verify_token f now a d =
  if dt_ltb (Session.expires s) now then
    (mk_db _ (users_collection d) (tasks_collection d)
       (fst (delete_one (by_token (Session.token s))
               (sessions_collection d))),
     Response (BError "Token expired") 401)
  else f (Session.user_id s) d.
Proof.
  intros Hwf Hs Ha.
  assert (Htok : token_hex_shape 32 (Session.token s) = true).
  { pose proof (wf_token_shape _ Hwf) as Hall.
    rewrite Forall_forall in Hall. apply Hall. by apply list_elem_of_In. }
  destruct (presents_header _ _ Htok Ha) as [Hfalsy Hrep].
  unfold verify_token. rewrite Hfalsy, Hrep.
  rewrite (find_one_unique Session.token _ _ s); [reflexivity| | | |].
  - apply Hwf.
  - assumption.
  - apply String.eqb_refl.
  - intros y Hy. by apply String.eqb_eq.
Qed.

(** A presented token that belongs to no stored session. *)
Lemma verify_token_unknown f now a d token :
  token_hex_shape 32 token = true → presents a token →
  (∀ s, In s (sessions_collection d) → Session.token s ≠ token) →
  verify_token f now a d = (d, Response (BError "Invalid token") 401).
Proof.
  intros Htok Ha Hnone.
  destruct (presents_header _ _ Htok Ha) as [Hfalsy Hrep].
  unfold verify_token. rewrite Hfalsy, Hrep.
  assert (find_one (by_token token) (sessions_collection d) = None) as ->;
    [|reflexivity].
  apply find_one_None. intros s Hs. apply String.eqb_neq. auto.
Qed.


End GateFacts.

(** ** What a login and the other requests do to the sessions *)

Section SessionFacts.
Context `{Platform}.
Implicit Types (d : db) (s : Session.t).

(** What a successful login tells about its arguments and its result. *)
Lemma login_success token now data d d' token' username email :
  login token now data d = (d', Response (BLogin token' username email) 200) →
  token' = token
  ∧ data !! "username" = Some username
  ∧ username ≠ ""
  ∧ (∃ password user,
       data !! "password" = Some password ∧ password ≠ ""
       ∧ find_one (fun u => String.eqb (User.username u) username)
           (users_collection d) = Some user
       ∧ User.password user = hash_password password
       ∧ User.email user = email)
  ∧ ∃ expires,
      add_24h now = Some expires
      ∧ users_collection d' = users_collection d
      ∧ tasks_collection d' = tasks_collection d
      ∧ sessions_collection d'
        = delete_many (fun s => String.eqb (Session.user_id s) username)
            (sessions_collection d)
          ++ [Session.mk token username (bson_datetime expires)]
      ∧ ∀ y, In y (delete_many
                     (fun s => String.eqb (Session.user_id s) username)
                     (sessions_collection d))
             → Session.token y ≠ token.
Proof.
  unfold login.
  destruct (data !! "username") as [u|]; [|discriminate].
  destruct (data !! "password") as [p|]; [|discriminate].
  destruct (_ || _) eqn:Hempty; [discriminate|].
  apply orb_false_iff in Hempty as [Hu%String.eqb_neq Hp%String.eqb_neq].
  destruct (find_one _ _) as [user|] eqn:Hfind; [|discriminate].
  destruct (negb _) eqn:Hpw; [discriminate|].
  apply negb_false_iff, String.eqb_eq in Hpw.
  destruct (add_24h now) as [expires|]; [|discriminate].
  destruct (insert_one _ _ _) as [sessions'|] eqn:Hins; [|discriminate].
  apply insert_one_Some in Hins as [-> Hfresh].
  intros [= <- <- <- <-]. split_and!; try done.
  - by exists p, user.
  - exists expires. split_and!; try done.
    intros y Hy. specialize (Hfresh y Hy).
    unfold sessions_clash in Hfresh. simpl in Hfresh.
    apply String.eqb_neq in Hfresh. congruence.
Qed.

Lemma login_sessions token now data d x :
  In x (sessions_collection (fst (login token now data d))) →
  In x (sessions_collection d) ∨ Session.token x = token.
Proof.
  unfold login.
  destruct (data !! "username") as [u|]; [|auto].
  destruct (data !! "password") as [p|]; [|auto].
  destruct (_ || _); [auto|].
  destruct (find_one _ _) as [user|]; [|auto].
  destruct (negb _); [auto|].
  destruct (add_24h now) as [expires|];
    [|simpl; rewrite delete_many_In; tauto].
  destruct (insert_one _ _ _) as [sessions'|] eqn:Hins;
    [|simpl; rewrite delete_many_In; tauto].
  apply insert_one_Some in Hins as [-> _]. simpl.
  rewrite in_app_iff, delete_many_In. simpl. intros [[? _]|[<-|[]]]; auto.
Qed.

Lemma verify_token_sessions f now a d x :
  (∀ user_id, In x (sessions_collection (fst (f user_id d))) →
              In x (sessions_collection d)) →
  In x (sessions_collection (fst (verify_token f now a d))) →
  In x (sessions_collection d).
Proof.
  intros Hf. unfold verify_token.
  destruct (falsy_str a); [auto|].
  destruct (find_one _ _) as [session|]; [|auto].
  destruct (dt_ltb _ _); [|apply Hf].
  simpl. apply delete_one_In.
Qed.

Lemma create_task_sessions oid now1 now2 data user_id d :
  sessions_collection (fst (create_task oid now1 now2 data user_id d))
  = sessions_collection d.
Proof.
  unfold create_task. destruct (falsy_get _); [reflexivity|].
  destruct (negb _); [reflexivity|]. by destruct (insert_one _ _ _).
Qed.

Lemma update_task_sessions task_id now data user_id d :
  sessions_collection (fst (update_task task_id now data user_id d))
  = sessions_collection d.
Proof.
  unfold update_task. destruct (oid_parse _); [|reflexivity].
  destruct (find_one _ _); [|reflexivity].
  destruct (negb _); [reflexivity|]. by destruct (find_one _ _).
Qed.

Lemma delete_task_sessions task_id user_id d :
  sessions_collection (fst (delete_task task_id user_id d))
  = sessions_collection d.
Proof.
  unfold delete_task. destruct (oid_parse _); [|reflexivity].
  destruct (delete_one _ _) as [tasks n]. by destruct (n =? 0).
Qed.

Lemma register_sessions oid now data d :
  sessions_collection (fst (register oid now data d))
  = sessions_collection d.
Proof.
  unfold register.
  destruct (data !! "username"); [|reflexivity].
  destruct (data !! "password"); [|reflexivity].
  destruct (data !! "email"); [|reflexivity].
  destruct (_ || _); [reflexivity|].
  destruct (find_one _ _); [reflexivity|]. by destruct (insert_one _ _ _).
Qed.

(** Only a login adds a session, and only under the token it drew. *)
Lemma run_sessions c d x :
  In x (sessions_collection (fst (run c d))) →
  In x (sessions_collection d) ∨ issues (Session.token x) c = true.
Proof.
  destruct c; simpl.
  - rewrite register_sessions. auto.
  - intros [?|<-]%login_sessions; [auto|]. right. apply String.eqb_refl.
  - intros Hx. apply verify_token_sessions in Hx; auto.
  - intros Hx. apply verify_token_sessions in Hx; [auto|].
    intros user_id. simpl. apply delete_one_In.
  - intros Hx. apply verify_token_sessions in Hx; auto.
  - intros Hx. apply verify_token_sessions in Hx; [auto|].
    intros user_id. by rewrite create_task_sessions.
  - intros Hx. apply verify_token_sessions in Hx; [auto|].
    intros user_id. by rewrite update_task_sessions.
  - intros Hx. apply verify_token_sessions in Hx; [auto|].
    intros user_id. by rewrite delete_task_sessions.
Qed.

Lemma run_all_sessions token cs d x :
  forallb (fun c => negb (issues token c)) cs = true →
  In x (sessions_collection (run_all cs d)) →
  Session.token x = token →
  In x (sessions_collection d).
Proof.
  revert d. induction cs as [|c cs IH]; intros d Hcs; [auto|].
  simpl in Hcs. apply andb_true_iff in Hcs as [Hc Hcs].
  intros Hx Htok. apply (IH _ Hcs) in Hx; [|assumption].
  apply run_sessions in Hx as [Hx|Hx]; [assumption|].
  rewrite Htok in Hx. by rewrite Hx in Hc.
Qed.
End SessionFacts.

(** ** The expiry computed by a login *)

Section ExpiryFacts.

Lemma add_24h_Some now : year now < 9999 → is_Some (add_24h now).
Proof.
  intros Hy. unfold add_24h.
  destruct (day now <? _); [eauto|].
  destruct (month now <? 12); [eauto|].
  destruct (Z.ltb_spec (year now) 9999); [eauto|lia].
Qed.

(** The expiry does not lie before the reading it was computed from. *)
Lemma add_24h_not_before now expires :
  add_24h now = Some expires → dt_ltb expires now = false.
Proof.
  unfold add_24h, dt_ltb, dt_compare.
  destruct (day now <? _).
  - intros [= <-]. simpl. rewrite !Z.compare_refl. simpl.
    assert ((day now + 1 ?= day now) = Gt) as ->
      by (apply Z.compare_gt_iff; lia).
    reflexivity.
  - destruct (month now <? 12).
    + intros [= <-]. simpl. rewrite !Z.compare_refl. simpl.
      assert ((month now + 1 ?= month now) = Gt) as ->
        by (apply Z.compare_gt_iff; lia).
      reflexivity.
    + destruct (year now <? 9999); [|discriminate].
      intros [= <-]. simpl.
      assert ((year now + 1 ?= year now) = Gt) as ->
        by (apply Z.compare_gt_iff; lia).
      reflexivity.
Qed.


End ExpiryFacts.

(** ** Updating one task in place *)

Section UpdateFacts.
Context `{Platform}.
Implicit Types (t : Task.t) (l : list Task.t).



(** Where a task sits in a collection with unique ids: nothing before it
    carries its id. *)
Lemma task_position l t :
  NoDup (map Task._id l) → In t l →
  ∃ l1 l2, l = l1 ++ t :: l2
           ∧ ∀ x, In x l1 → by_id (Task._id t) x = false.
Proof.
  intros Hnd Ht. apply in_split in Ht as (l1 & l2 & ->).
  exists l1, l2. split; [reflexivity|]. intros x Hx.
  apply bool_decide_eq_false. intros Heq.
  rewrite map_app in Hnd. simpl in Hnd.
  apply NoDup_app in Hnd as (_ & Hdisj & _).
  apply (Hdisj (Task._id x)).
  - by apply list_elem_of_In, in_map.
  - rewrite Heq. by left.
Qed.

Lemma by_id_refl t : by_id (Task._id t) t = true.
Proof. by apply bool_decide_eq_true. Qed.



Lemma update_data_empty now t :
  update_data now ∅ t
  = Task.mk _ (Task._id t) (Task.title t) (Task.description t)
      (Task.completed t) (Task.user_id t) (Task.due_date t)
      (Task.due_time t) (Task.category t) (Task.created_at t) now.
Proof. reflexivity. Qed.
End UpdateFacts.

(** ** Sorting the listing *)

Section ListingFacts.
Context `{Platform}.
Implicit Types (t : Task.t) (l : list Task.t).







End ListingFacts.

(** ** The [_id] of a user document is never consulted *)

Section UserIdFacts.
Context `{Platform}.
Implicit Types (d : db).












End UserIdFacts.

(** ** The claims *)

Section Claims.
Context `{Platform}.
Implicit Types (d : db) (s : Session.t) (t : Task.t).


(** C3 (lazy expiry eviction).  On every reachable store, presenting the
    token of a session whose [expires] lies before the current time is
    answered 401 "Token expired" whatever the route, the session record
    is removed and nothing else changes, and presenting the same token
    again is answered 401 "Invalid token". *)
Theorem expired_session_evicted d s a now f :
  reachable d →
  In s (sessions_collection d) →
  dt_ltb (Session.expires s) now = true →
  presents a (Session.token s) →
  ∃ d',
    verify_token f now a d = (d', Response (BError "Token expired") 401)
    ∧ users_collection d' = users_collection d
    ∧ tasks_collection d' = tasks_collection d
    ∧ (∀ x, In x (sessions_collection d') ↔
            In x (sessions_collection d)
            ∧ Session.token x ≠ Session.token s)
    ∧ ∀ f' now',
        verify_token f' now' a d'
        = (d', Response (BError "Invalid token") 401).
Proof.
  intros Hd%reachable_wf Hs Hexp Ha.
  rewrite (verify_token_session f now a d s Hd Hs Ha), Hexp.
  eexists. split; [reflexivity|]. simpl.
  assert (Hgone : ∀ x,
    In x (fst (delete_one (by_token (Session.token s))
                 (sessions_collection d)))
    → Session.token x ≠ Session.token s).
  { intros x Hx. apply String.eqb_neq.
    revert x Hx. apply (delete_one_unique_gone Session.token).
    - intros y z Hy%String.eqb_eq Hz%String.eqb_eq. congruence.
    - apply Hd. }
  split_and!; try reflexivity.
  - intros x. split.
    + intros Hx. split; [by eapply delete_one_In|by apply Hgone].
    + intros [Hx Hne]. apply delete_one_keeps; [assumption|].
      by apply String.eqb_neq.
  - intros f' now'. apply (verify_token_unknown _ _ _ _ (Session.token s)).
    + pose proof (wf_token_shape _ Hd) as Hall.
      rewrite Forall_forall in Hall. apply Hall. by apply list_elem_of_In.
    + assumption.
    + exact Hgone.
Qed.

(** C2 (single session).  On every reachable store no two sessions carry
    the same [user_id].  A successful login removes every earlier session
    of that user before it stores the new one, so that the new session is
    the user's only one.  When the same user logs in a second time, after
    any requests in between that do not draw the first token again and
    with a second token different from the first, presenting the first
    token is answered 401 "Invalid token" on every protected route. *)
Theorem single_session d :
  reachable d →
  (∀ s1 s2, In s1 (sessions_collection d) → In s2 (sessions_collection d) →
            Session.user_id s1 = Session.user_id s2 → s1 = s2)
  ∧ (∀ token now data d' username email,
       login token now data d
       = (d', Response (BLogin token username email) 200) →
       ∃ expires,
         sessions_collection d'
         = delete_many (fun s => String.eqb (Session.user_id s) username)
             (sessions_collection d)
           ++ [Session.mk token username expires]
         ∧ ∀ x, In x (sessions_collection d') →
                Session.user_id x = username →
                x = Session.mk token username expires)
  ∧ (∀ token1 now1 data1 d1 username email1 cs
       token2 now2 data2 d2 email2 a f now,
       login token1 now1 data1 d
       = (d1, Response (BLogin token1 username email1) 200) →
       token_hex_shape 32 token1 = true →
       forallb (fun c => negb (issues token1 c)) cs = true →
       login token2 now2 data2 (run_all cs d1)
       = (d2, Response (BLogin token2 username email2) 200) →
       token1 ≠ token2 →
       presents a token1 →
       verify_token f now a d2
       = (d2, Response (BError "Invalid token") 401)).
Proof.
  intros Hd%reachable_wf. split_and!.
  - intros s1 s2 Hs1 Hs2.
    apply (NoDup_map_In_inj Session.user_id (sessions_collection d));
      [apply Hd|assumption..].
  - intros token now data d' username email Hlogin.
    apply login_success in Hlogin
      as (_ & _ & _ & _ & expires & _ & _ & _ & Hsessions & _).
    exists (bson_datetime expires). split; [assumption|]. rewrite Hsessions.
    intros x [Hx|[<-|[]]]%in_app_iff Hu; [|reflexivity].
    apply delete_many_In in Hx as [_ Hx%String.eqb_neq]. contradiction.
  - intros token1 now1 data1 d1 username email1 cs
      token2 now2 data2 d2 email2 a f now Hl1 Htok Hcs Hl2 Hne Ha.
    apply login_success in Hl1
      as (_ & _ & _ & _ & exp1 & _ & _ & _ & Hs1 & Hfresh1).
    apply login_success in Hl2
      as (_ & _ & _ & _ & exp2 & _ & _ & _ & Hs2 & _).
    apply (verify_token_unknown _ _ _ _ token1); [assumption..|].
    intros s Hs Heq. rewrite Hs2 in Hs.
    apply in_app_iff in Hs as [Hs|[<-|[]]]; [|simpl in Heq; congruence].
    apply delete_many_In in Hs as [Hs Hu%String.eqb_neq].
    apply (run_all_sessions token1) in Hs; [|assumption..].
    rewrite Hs1 in Hs. apply in_app_iff in Hs as [Hs|[<-|[]]].
    + by apply Hfresh1 in Hs.
    + by apply Hu.
Qed.





End Claims.

(** ** What one request can do to the store *)

Section RequestFacts.
Context `{Platform}.
Implicit Types (d : db) (s : Session.t) (t : Task.t).

(** The four ways through the decorator. *)
Lemma verify_token_cases f now a d :
  let token := str_replace "Bearer " "" (default "" a) in
  verify_token f now a d = (d, Response (BError "No token provided") 401)
  ∨ verify_token f now a d = (d, Response (BError "Invalid token") 401)
  ∨ (∃ s, In s (sessions_collection d) ∧ Session.token s = token
          ∧ dt_ltb (Session.expires s) now = true
          ∧ verify_token f now a d
            = (mk_db _ (users_collection d) (tasks_collection d)
                 (fst (delete_one (by_token token) (sessions_collection d))),
               Response (BError "Token expired") 401))
  ∨ (∃ s, In s (sessions_collection d) ∧ Session.token s = token
          ∧ dt_ltb (Session.expires s) now = false
          ∧ verify_token f now a d = f (Session.user_id s) d).
Proof.
  intros token. unfold verify_token. fold token.
  destruct (falsy_str a); [by left|].
  destruct (find_one _ _) as [s|] eqn:Hfind; [|by right; left].
  apply find_one_Some in Hfind as [Hs Htok%String.eqb_eq].
  destruct (dt_ltb _ _) eqn:Hexp.
  - right; right; left. by exists s.
  - right; right; right. by exists s.
Qed.

Lemma register_tasks oid now data d :
  tasks_collection (fst (register oid now data d)) = tasks_collection d.
Proof.
  unfold register.
  destruct (data !! "username"); [|reflexivity].
  destruct (data !! "password"); [|reflexivity].
  destruct (data !! "email"); [|reflexivity].
  destruct (_ || _); [reflexivity|].
  destruct (find_one _ _); [reflexivity|]. by destruct (insert_one _ _ _).
Qed.

Lemma login_tasks token now data d :
  tasks_collection (fst (login token now data d)) = tasks_collection d.
Proof.
  unfold login.
  destruct (data !! "username"); [|reflexivity].
  destruct (data !! "password"); [|reflexivity].
  destruct (_ || _); [reflexivity|].
  destruct (find_one _ _); [|reflexivity].
  destruct (negb _); [reflexivity|].
  destruct (add_24h now); [|reflexivity]. by destruct (insert_one _ _ _).
Qed.

Lemma login_users token now data d :
  users_collection (fst (login token now data d)) = users_collection d.
Proof.
  unfold login.
  destruct (data !! "username"); [|reflexivity].
  destruct (data !! "password"); [|reflexivity].
  destruct (_ || _); [reflexivity|].
  destruct (find_one _ _); [|reflexivity].
  destruct (negb _); [reflexivity|].
  destruct (add_24h now); [|reflexivity]. by destruct (insert_one _ _ _).
Qed.

Lemma verify_token_users f now a d :
  (∀ user_id, users_collection (fst (f user_id d)) = users_collection d) →
  users_collection (fst (verify_token f now a d)) = users_collection d.
Proof.
  intros Hf.
  destruct (verify_token_cases f now a d)
    as [->|[->|[(s & _ & _ & _ & ->)|(s & _ & _ & _ & ->)]]]; auto.
Qed.

Lemma create_task_users oid now1 now2 data user_id d :
  users_collection (fst (create_task oid now1 now2 data user_id d))
  = users_collection d.
Proof.
  unfold create_task. destruct (falsy_get _); [reflexivity|].
  destruct (negb _); [reflexivity|]. by destruct (insert_one _ _ _).
Qed.

Lemma update_task_users task_id now data user_id d :
  users_collection (fst (update_task task_id now data user_id d))
  = users_collection d.
Proof.
  unfold update_task. destruct (oid_parse _); [|reflexivity].
  destruct (find_one _ _); [|reflexivity].
  destruct (negb _); [reflexivity|]. by destruct (find_one _ _).
Qed.

Lemma delete_task_users task_id user_id d :
  users_collection (fst (delete_task task_id user_id d))
  = users_collection d.
Proof.
  unfold delete_task. destruct (oid_parse _); [|reflexivity].
  destruct (delete_one _ _) as [tasks n]. by destruct (n =? 0).
Qed.

(** Only a registration touches the users. *)
Lemma run_users_other c d :
  is_register c = false →
  users_collection (fst (run c d)) = users_collection d.
Proof.
  destruct c; simpl; [discriminate|intros _..].
  - apply login_users.
  - by apply verify_token_users.
  - by apply verify_token_users.
  - by apply verify_token_users.
  - apply verify_token_users. intros. apply create_task_users.
  - apply verify_token_users. intros. apply update_task_users.
  - apply verify_token_users. intros. apply delete_task_users.
Qed.

(** What a registration does: nothing, or one more user at the end. *)
Lemma register_cases oid now data d :
  fst (register oid now data d) = d ∧ (∀ b, snd (register oid now data d) ≠ Response b 201)
  ∨ ∃ username password email,
      data !! "username" = Some username
      ∧ data !! "password" = Some password
      ∧ data !! "email" = Some email
      ∧ username ≠ "" ∧ password ≠ "" ∧ email ≠ ""
      ∧ (∀ u, In u (users_collection d) →
              User.username u ≠ username ∧ User.email u ≠ email
              ∧ User._id u ≠ oid)
      ∧ register oid now data d
        = (mk_db _
             (users_collection d
              ++ [User.mk _ oid username email (hash_password password)
                    (bson_datetime now)])
             (tasks_collection d) (sessions_collection d),
           Response (BMessage "User registered successfully") 201).
Proof.
  unfold register.
  destruct (data !! "username") as [username|]; [|by left].
  destruct (data !! "password") as [password|]; [|by left].
  destruct (data !! "email") as [email|]; [|by left].
  destruct (_ || _) eqn:Hempty; [by left|].
  apply orb_false_iff in Hempty
    as [[Hu%String.eqb_neq Hp%String.eqb_neq]%orb_false_iff He%String.eqb_neq].
  destruct (find_one _ _) eqn:Hfind; [by left|].
  destruct (insert_one _ _ _) as [users|] eqn:Hins; [|by left].
  apply insert_one_Some in Hins as [-> Hfresh].
  right. exists username, password, email. split_and!; try done.
  intros u Hu'. rewrite find_one_None in Hfind.
  specialize (Hfind u Hu'). specialize (Hfresh u Hu').
  apply orb_false_iff in Hfind as [Hn%String.eqb_neq He'%String.eqb_neq].
  unfold users_clash in Hfresh. simpl in Hfresh.
  apply orb_false_iff in Hfresh as [[Hid%bool_decide_eq_false _]%orb_false_iff _].
  by split_and!.
Qed.





Lemma update_one_In {A} (q : A → bool) upd (l : list A) y :
  In y (update_one q upd l) →
  In y l ∨ ∃ x, In x l ∧ q x = true ∧ y = upd x.
Proof.
  induction l as [|x l IH]; simpl; [auto|].
  destruct (q x) eqn:Hq; simpl.
  - intros [<-|Hy]; [right; exists x; auto|auto].
  - intros [<-|Hy]; [auto|]. destruct (IH Hy) as [?|(z & ? & ? & ?)]; [auto|].
    right. exists z. auto.
Qed.



Lemma continues_old user_id old t' : In t' old → continues user_id old t'.
Proof. intros Ht. left. by exists t'. Qed.

Lemma create_task_continues oid now1 now2 data user_id d t' :
  In t' (tasks_collection (fst (create_task oid now1 now2 data user_id d))) →
  continues user_id (tasks_collection d) t'.
Proof.
  unfold create_task. destruct (falsy_get _); [apply continues_old|].
  destruct (negb _); [apply continues_old|].
  destruct (insert_one _ _ _) as [tasks|] eqn:Hins; [|apply continues_old].
  apply insert_one_Some in Hins as [-> Hfresh]. simpl.
  intros [Ht|[<-|[]]]%in_app_iff; [by apply continues_old|].
  right. split; [|reflexivity]. intros x Hx. simpl.
  specialize (Hfresh x Hx). unfold tasks_clash in Hfresh. simpl in Hfresh.
  apply bool_decide_eq_false in Hfresh. congruence.
Qed.

Lemma update_task_continues task_id now data user_id d t' :
  In t' (tasks_collection (fst (update_task task_id now data user_id d))) →
  continues user_id (tasks_collection d) t'.
Proof.
  unfold update_task. destruct (oid_parse _) as [oid|]; [|apply continues_old].
  destruct (find_one _ _); [|apply continues_old].
  destruct (negb _); [apply continues_old|].
  assert (In t' (update_one (by_id oid)
                   (update_data (bson_datetime now) data)
                   (tasks_collection d))
          → continues user_id (tasks_collection d) t') as Hupd.
  { intros [Ht|(x & Hx & _ & ->)]%update_one_In; [by apply continues_old|].
    left. by exists x. }
  by destruct (find_one _ _).
Qed.

Lemma delete_task_continues task_id user_id d t' :
  In t' (tasks_collection (fst (delete_task task_id user_id d))) →
  continues user_id (tasks_collection d) t'.
Proof.
  unfold delete_task. destruct (oid_parse _) as [oid|]; [|apply continues_old].
  pose proof (delete_one_In (by_id_and_owner oid user_id)
                (tasks_collection d) t') as Hin.
  destruct (delete_one _ _) as [tasks n]. simpl in Hin.
  destruct (n =? 0); [apply continues_old|]. simpl.
  intros Ht. by apply continues_old, Hin.
Qed.

Lemma verify_token_continues f now a d t' :
  (∀ user_id, In t' (tasks_collection (fst (f user_id d))) →
              continues user_id (tasks_collection d) t') →
  In t' (tasks_collection (fst (verify_token f now a d))) →
  ∃ user_id, continues user_id (tasks_collection d) t'
             ∧ (In t' (tasks_collection d)
                ∨ ∃ s, In s (sessions_collection d)
                       ∧ Session.user_id s = user_id).
Proof.
  intros Hf.
  destruct (verify_token_cases f now a d)
    as [->|[->|[(s & _ & _ & _ & ->)|(s & Hs & _ & _ & ->)]]]; simpl.
  - intros Ht. exists "". split; [by apply continues_old|by left].
  - intros Ht. exists "". split; [by apply continues_old|by left].
  - intros Ht. exists "". split; [by apply continues_old|by left].
  - intros Ht. exists (Session.user_id s). split; [by apply Hf|].
    right. by exists s.
Qed.

(** Every task after a request continues an old task or is new and owned
    by the user of a stored session. *)
Lemma run_continues c d t' :
  In t' (tasks_collection (fst (run c d))) →
  ∃ user_id, continues user_id (tasks_collection d) t'
             ∧ (In t' (tasks_collection d)
                ∨ ∃ s, In s (sessions_collection d)
                       ∧ Session.user_id s = user_id).
Proof.
  destruct c; simpl.
  - rewrite register_tasks. intros Ht. exists "".
    split; [by apply continues_old|by left].
  - rewrite login_tasks. intros Ht. exists "".
    split; [by apply continues_old|by left].
  - apply verify_token_continues. intros u. apply continues_old.
  - apply verify_token_continues. intros u. apply continues_old.
  - apply verify_token_continues. intros u. apply continues_old.
  - apply verify_token_continues. intros u. apply create_task_continues.
  - apply verify_token_continues. intros u. apply update_task_continues.
  - apply verify_token_continues. intros u. apply delete_task_continues.
Qed.
End RequestFacts.

(** ** Further properties of the routes *)

Section Extras.
Context `{Platform}.
Implicit Types (d : db) (s : Session.t) (t : Task.t).





(** X2 (owner and creation time are immutable).  On every reachable store,
    a task that is still stored after a request, under the same [_id],
    has kept its [user_id] and its [created_at], whatever the request and
    whatever its payload. *)
Theorem task_owner_immutable c d t t' :
  reachable d →
  In t (tasks_collection d) →
  In t' (tasks_collection (fst (run c d))) →
  Task._id t' = Task._id t →
  Task.user_id t' = Task.user_id t ∧ Task.created_at t' = Task.created_at t.
Proof.
  intros Hd%reachable_wf Ht Ht' Hid.
  destruct (run_continues c d t' Ht')
    as (u & [(x & Hx & Hxid & Hxu & Hxc)|[Hfresh _]] & _).
  - assert (x = t) as ->; [|by split].
    apply (NoDup_map_In_inj Task._id (tasks_collection d));
      [apply Hd|assumption..|congruence].
  - exfalso. by apply (Hfresh t Ht).
Qed.


(** X4 (no other route ends a session).  A stored session is still
    stored after every request that is not a login and does not present
    its token: no registration and no protected route, whatever its
    payload, removes the session of another client. *)
Theorem session_survives c d s :
  In s (sessions_collection d) →
  is_login c = false →
  presented c ≠ Some (Session.token s) →
  In s (sessions_collection (fst (run c d))).
Proof.
  intros Hs Hlogin Htok.
  assert (Hgate : ∀ f now a,
    presented c = Some (str_replace "Bearer " "" (default "" a)) →
    (∀ user_id, In s (sessions_collection (fst (f user_id d)))) →
    In s (sessions_collection (fst (verify_token f now a d)))).
  { intros f now a Hc Hf.
    destruct (verify_token_cases f now a d)
      as [->|[->|[(x & _ & _ & _ & ->)|(x & _ & _ & _ & ->)]]];
      try assumption; [|apply Hf].
    simpl. apply delete_one_keeps; [assumption|].
    apply String.eqb_neq. intros Heq. apply Htok. by rewrite Hc, Heq. }
  destruct c; simpl; try discriminate Hlogin.
  - by rewrite register_sessions.
  - by apply Hgate.
  - apply Hgate; [reflexivity|]. intros u. simpl.
    apply delete_one_keeps; [assumption|].
    apply String.eqb_neq. intros Heq. apply Htok. simpl. by rewrite Heq.
  - by apply Hgate.
  - apply Hgate; [reflexivity|]. intros u. by rewrite create_task_sessions.
  - apply Hgate; [reflexivity|]. intros u. by rewrite update_task_sessions.
  - apply Hgate; [reflexivity|]. intros u. by rewrite delete_task_sessions.
Qed.


Lemma delete_one_app_skip {A} (q : A → bool) (l1 l2 : list A) x :
  (∀ y, In y l1 → q y = false) → q x = true →
  delete_one q (l1 ++ x :: l2) = (l1 ++ l2, 1).
Proof.
  intros Hl1 Hx. induction l1 as [|y l1 IH]; simpl.
  - by rewrite Hx.
  - rewrite (Hl1 y) by (by left). rewrite IH; [reflexivity|].
    intros z Hz. apply Hl1. by right.
Qed.

(** A login with the right password on a well-formed store. *)
Lemma login_accepts d user password token now expires data :
  wf d →
  In user (users_collection d) →
  User.password user = hash_password password →
  password ≠ "" →
  data !! "username" = Some (User.username user) →
  data !! "password" = Some password →
  (∀ s, In s (sessions_collection d) → Session.token s ≠ token) →
  add_24h now = Some expires →
  login token now data d
  = (mk_db _ (users_collection d) (tasks_collection d)
       (delete_many
          (fun s => String.eqb (Session.user_id s) (User.username user))
          (sessions_collection d)
        ++ [Session.mk token (User.username user) (bson_datetime expires)]),
     Response (BLogin token (User.username user) (User.email user)) 200).
Proof.
  intros Hd Huser Hpw Hpw0 Hdu Hdp Hfresh Hexp.
  assert (Hname : User.username user ≠ "").
  { pose proof (wf_username_nonempty _ Hd) as Hall.
    rewrite Forall_forall in Hall. apply Hall. by apply list_elem_of_In. }
  unfold login. rewrite Hdu, Hdp.
  apply String.eqb_neq in Hname as ->.
  apply String.eqb_neq in Hpw0 as ->. simpl.
  rewrite (find_one_unique User.username _ _ user);
    [|apply Hd|assumption|apply String.eqb_refl|
     by intros y Hy%String.eqb_eq].
  rewrite Hpw, String.eqb_refl. simpl. rewrite Hexp.
  rewrite insert_one_fresh; [reflexivity|].
  intros y [Hy _]%delete_many_In. unfold sessions_clash. simpl.
  apply String.eqb_neq. intros Heq. by apply (Hfresh y).
Qed.

(** X5 (logout revokes the token).  On every reachable store, a logout
    that presents the token of a stored, unexpired session is answered
    200, removes exactly that session and touches neither users nor
    tasks; presenting the token afterwards is answered 401 "Invalid
    token" on every protected route. *)
Theorem logout_revokes d s a now :
  reachable d →
  In s (sessions_collection d) →
  presents a (Session.token s) →
  dt_ltb (Session.expires s) now = false →
  ∃ d',
    run (Logout now a) d
    = (d', Response (BMessage "Logged out successfully") 200)
    ∧ users_collection d' = users_collection d
    ∧ tasks_collection d' = tasks_collection d
    ∧ (∀ x, In x (sessions_collection d') ↔
            In x (sessions_collection d)
            ∧ Session.token x ≠ Session.token s)
    ∧ ∀ f now',
        verify_token f now' a d'
        = (d', Response (BError "Invalid token") 401).
Proof.
  intros Hd%reachable_wf Hs Ha Hlive.
  assert (Htok : token_hex_shape 32 (Session.token s) = true).
  { pose proof (wf_token_shape _ Hd) as Hall.
    rewrite Forall_forall in Hall. apply Hall. by apply list_elem_of_In. }
  destruct (presents_header _ _ Htok Ha) as [_ Hrep].
  simpl. rewrite (verify_token_session _ now a d s Hd Hs Ha), Hlive.
  unfold logout. rewrite Hrep.
  eexists. split; [reflexivity|]. simpl.
  assert (Hgone : ∀ x,
    In x (fst (delete_one (by_token (Session.token s))
                 (sessions_collection d)))
    → Session.token x ≠ Session.token s).
  { intros x Hx. apply String.eqb_neq.
    revert x Hx. apply (delete_one_unique_gone Session.token).
    - intros y z Hy%String.eqb_eq Hz%String.eqb_eq. congruence.
    - apply Hd. }
  split_and!; try reflexivity.
  - intros x. split.
    + intros Hx. split; [by eapply delete_one_In|by apply Hgone].
    + intros [Hx Hne]. apply delete_one_keeps; [assumption|].
      by apply String.eqb_neq.
  - intros f now'.
    by apply (verify_token_unknown _ _ _ _ (Session.token s)).
Qed.

(** X6 (a delete removes one task, once).  On every reachable store, the
    owner's delete of a stored task is answered 200 and removes that
    document and no other, keeping the order of the rest; no document
    with that [_id] is left, so that a second delete and any update of
    the same id are answered 404 "Task not found" and change nothing. *)
Theorem delete_task_removes d t task_id :
  reachable d →
  In t (tasks_collection d) →
  oid_parse task_id = Some (Task._id t) →
  ∃ l1 l2,
    tasks_collection d = l1 ++ t :: l2
    ∧ (∀ x, In x (l1 ++ l2) → Task._id x ≠ Task._id t)
    ∧ let d' :=
        mk_db _ (users_collection d) (l1 ++ l2) (sessions_collection d) in
      delete_task task_id (Task.user_id t) d
      = (d', Response (BMessage "Task deleted successfully") 200)
      ∧ delete_task task_id (Task.user_id t) d'
        = (d', Response (BError "Task not found") 404)
      ∧ ∀ now data,
          update_task task_id now data (Task.user_id t) d'
          = (d', Response (BError "Task not found") 404).
Proof.
  intros Hd%reachable_wf Ht Hid.
  destruct (task_position _ t (wf_task_ids _ Hd) Ht)
    as (l1 & l2 & Hsplit & Hbefore).
  exists l1, l2. split; [assumption|].
  assert (Hrest : ∀ x, In x (l1 ++ l2) → Task._id x ≠ Task._id t).
  { pose proof (wf_task_ids _ Hd) as Hnd. rewrite Hsplit, map_app in Hnd.
    simpl in Hnd. apply NoDup_app in Hnd as (_ & Hdisj & Hnd2).
    apply NoDup_cons in Hnd2 as [Hnot _].
    intros x [Hx|Hx]%in_app_iff Heq.
    - apply (Hdisj (Task._id x)); [by apply list_elem_of_In, in_map|].
      rewrite Heq. by left.
    - apply Hnot. rewrite <- Heq. by apply list_elem_of_In, in_map. }
  split; [exact Hrest|].
  assert (Hnone : ∀ x, In x (l1 ++ l2) →
            by_id_and_owner (Task._id t) (Task.user_id t) x = false).
  { intros x Hx. apply andb_false_iff. left.
    apply bool_decide_eq_false. by apply Hrest. }
  simpl. split_and!.
  - unfold delete_task. rewrite Hid, Hsplit.
    rewrite delete_one_app_skip; [reflexivity| |].
    + intros y Hy. apply andb_false_iff. left. by apply Hbefore.
    + unfold by_id_and_owner, by_owner.
      by rewrite by_id_refl, String.eqb_refl.
  - unfold delete_task. rewrite Hid. simpl.
    by rewrite (delete_one_none _ _ Hnone).
  - intros now data. unfold update_task. rewrite Hid. simpl.
    by apply find_one_None in Hnone as ->.
Qed.



(** X9 (register, then log in).  On every reachable store, after a
    registration answered 201, a login with the same body, a token that
    no stored session holds and a clock before year 9999 is answered 200
    with the token, the registered user name and the registered email,
    and stores a session for that user name whose expiry is 24 hours
    after the login, rounded down to the millisecond. *)
Theorem register_then_login oid now data d d' token now' :
  reachable d →
  register oid now data d
  = (d', Response (BMessage "User registered successfully") 201) →
  (∀ s, In s (sessions_collection d) → Session.token s ≠ token) →
  year now' < 9999 →
  ∃ username email expires d'',
    data !! "username" = Some username
    ∧ data !! "email" = Some email
    ∧ login token now' data d'
      = (d'', Response (BLogin token username email) 200)
    ∧ In (Session.mk token username (bson_datetime expires))
        (sessions_collection d'')
    ∧ add_24h now' = Some expires.
Proof.
  intros Hd%reachable_wf Hreg Hfresh Hyear.
  assert (Hd' : wf d').
  { replace d' with (fst (register oid now data d)) by (by rewrite Hreg).
    by apply register_wf. }
  destruct (register_cases oid now data d)
    as [[_ Hnot]|(username & password & email & Hdu & Hdp & Hde & _ & Hp & _
                  & _ & Heq)].
  { exfalso. apply (Hnot (BMessage "User registered successfully")).
    by rewrite Hreg. }
  rewrite Hreg in Heq. injection Heq as ->.
  destruct (add_24h_Some now' Hyear) as [expires Hexp].
  exists username, email, expires. eexists. split_and!; try done.
  - apply (login_accepts _
             (User.mk _ oid username email (hash_password password)
                (bson_datetime now))
             password token now' expires data Hd'); try done.
    simpl. apply in_app_iff. right. by left.
  - simpl. apply in_app_iff. right. by left.
Qed.

Lemma run_users_grow c d :
  ∃ extra,
    users_collection (fst (run c d)) = users_collection d ++ extra
    ∧ (List.length extra ≤ if is_register c then 1 else 0)%nat.
Proof.
  destruct (is_register c) eqn:Hc.
  - destruct c; try discriminate. simpl.
    destruct (register_cases oid now data d)
      as [[-> _]|(u & p & e & _ & _ & _ & _ & _ & _ & _ & ->)].
    + exists []. rewrite app_nil_r. split; [reflexivity|simpl; lia].
    + eexists [_]. split; [reflexivity|simpl; lia].
  - exists []. rewrite app_nil_r, run_users_other by assumption.
    split; [reflexivity|simpl; lia].
Qed.

(** X10 (user documents are never changed or removed).  Whatever
    requests are made, in whatever order, the user documents stored
    before are still stored afterwards, unchanged and in the same order,
    before the ones added since; at most one is added per registration
    request. *)
Theorem users_never_change cs d :
  ∃ extra,
    users_collection (run_all cs d) = users_collection d ++ extra
    ∧ (List.length extra ≤ List.length (List.filter is_register cs))%nat.
Proof.
  revert d. induction cs as [|c cs IH]; intros d.
  - exists []. rewrite app_nil_r. split; [reflexivity|simpl; lia].
  - destruct (IH (fst (run c d))) as (extra2 & Heq2 & Hlen2).
    destruct (run_users_grow c d) as (extra1 & Heq1 & Hlen1).
    exists (extra1 ++ extra2). split.
    + change (run_all (c :: cs) d) with (run_all cs (fst (run c d))).
      rewrite Heq2, Heq1. by rewrite app_assoc.
    + rewrite length_app. simpl. destruct (is_register c); simpl; lia.
Qed.

(** X11 (accounts stay unique).  On every reachable store no two user
    documents share a user name, an email or an [_id]; every user
    document has a non-empty user name and email, and its password field
    is the digest of a non-empty password. *)
Theorem users_stay_unique d :
  reachable d →
  (∀ u1 u2,
     In u1 (users_collection d) → In u2 (users_collection d) →
     User.username u1 = User.username u2
     ∨ User.email u1 = User.email u2
     ∨ User._id u1 = User._id u2 →
     u1 = u2)
  ∧ ∀ u, In u (users_collection d) →
         User.username u ≠ "" ∧ User.email u ≠ ""
         ∧ ∃ password, password ≠ ""
                       ∧ User.password u = hash_password password.
Proof.
  induction 1 as [|c d Hd [IHuniq IHfields] Henv].
  - split; [intros u1 u2 []|intros u []].
  - destruct (is_register c) eqn:Hc;
      [|rewrite run_users_other by assumption; by split].
    destruct c; try discriminate. simpl.
    destruct (register_cases oid now data d)
      as [[-> _]|(username & password & email & _ & _ & _ & Hu & Hp & He
                  & Hfresh & ->)]; [by split|].
    simpl. split.
    + intros u1 u2 [H1|[<-|[]]]%in_app_iff [H2|[<-|[]]]%in_app_iff Hsame.
      * by apply IHuniq.
      * exfalso. destruct (Hfresh u1 H1) as (Hn & Hm & Hi). simpl in Hsame.
        destruct Hsame as [?|[?|?]]; congruence.
      * exfalso. destruct (Hfresh u2 H2) as (Hn & Hm & Hi). simpl in Hsame.
        destruct Hsame as [?|[?|?]]; congruence.
      * reflexivity.
    + intros u [Hin|[<-|[]]]%in_app_iff; [by apply IHfields|].
      simpl. split_and!; try done. by exists password.
Qed.

Lemma string_ltb_irrefl (str : string) : String.ltb str str = false.
Proof.
  unfold String.ltb.
  assert (String.compare str str = Eq) as ->; [|reflexivity].
  induction str as [|a str IH]; simpl; [reflexivity|].
  by rewrite ascii_compare_refl.
Qed.

Lemma filter_none {A} (q : A → bool) (l : list A) :
  (∀ x, In x l → q x = false) → List.filter q l = [].
Proof.
  induction l as [|x l IH]; simpl; [reflexivity|]. intros Hq.
  rewrite (Hq x) by (by left). apply IH. intros y Hy. apply Hq. by right.
Qed.

Lemma insert_desc_filter_key {A} (key : A → string) k x (l : list A) :
  StronglySorted (not_below key) l →
  List.filter (fun y => String.eqb (key y) k) (insert_desc key x l)
  = List.filter (fun y => String.eqb (key y) k) l
    ++ (if String.eqb (key x) k then [x] else []).
Proof.
  induction 1 as [|y l Hl IH Hy]; simpl.
  - by destruct (String.eqb (key x) k).
  - destruct (String.ltb (key y) (key x)) eqn:Hyx; simpl.
    + destruct (String.eqb_spec (key x) k) as [Hk|Hk];
        [|by rewrite app_nil_r].
      assert (String.eqb (key y) k = false) as ->.
      { apply String.eqb_neq. intros Heq. rewrite Hk, <- Heq in Hyx.
        by rewrite string_ltb_irrefl in Hyx. }
      rewrite filter_none; [reflexivity|].
      intros z Hz. apply String.eqb_neq. intros Heq.
      rewrite Forall_forall in Hy.
      specialize (Hy z ltac:(by apply list_elem_of_In)).
      unfold not_below in Hy. rewrite Heq, <- Hk in Hy. congruence.
    + rewrite IH. by destruct (String.eqb (key y) k).
Qed.

(** The sort keeps the order of the elements that share a key. *)
Lemma sort_desc_stable_key {A} (key : A → string) k (l : list A) :
  List.filter (fun y => String.eqb (key y) k) (sort_desc key l)
  = List.filter (fun y => String.eqb (key y) k) l.
Proof.
  unfold sort_desc.
  assert (Hgen : ∀ acc,
    StronglySorted (not_below key) acc →
    List.filter (fun y => String.eqb (key y) k)
      (fold_left (fun acc x => insert_desc key x acc) l acc)
    = List.filter (fun y => String.eqb (key y) k) acc
      ++ List.filter (fun y => String.eqb (key y) k) l).
  { induction l as [|x l IH]; intros acc Hacc; simpl.
    - by rewrite app_nil_r.
    - rewrite IH by (by apply insert_desc_sorted).
      rewrite insert_desc_filter_key by assumption.
      rewrite <- app_assoc. by destruct (String.eqb (key x) k). }
  apply (Hgen []). constructor.
Qed.

(** X12 (ties in the listing keep the insertion order).  In the listing
    of a user, the tasks that share one [created_at] string stand in the
    order in which they are stored, whatever stands between them. *)
Theorem get_tasks_ties_in_store_order user_id d created_at :
  ∃ js,
    get_tasks user_id d = (d, Response (BTasks js) 200)
    ∧ List.filter
        (fun j => String.eqb (TaskJson.created_at j) created_at) js
      = map task_json
          (List.filter
             (fun t => by_owner user_id t
                       && String.eqb (isoformat (Task.created_at t))
                            created_at)
             (tasks_collection d)).
Proof.
  eexists. split; [reflexivity|].
  rewrite sort_desc_stable_key. unfold find.
  induction (tasks_collection d) as [|t l IH]; [reflexivity|].
  cbn [List.filter]. destruct (by_owner user_id t);
    cbn [map List.filter andb]; [|exact IH].
  change (TaskJson.created_at (task_json t))
    with (isoformat (Task.created_at t)).
  destruct (String.eqb (isoformat (Task.created_at t)) created_at);
    cbn [map]; by rewrite IH.
Qed.

(** X13 (the [Bearer ] prefix is optional for an issued token).  For a
    token of the shape drawn by [secrets.token_hex(32)], every protected
    route treats the header ["Bearer " + token] and the bare token alike,
    and looks the session up under exactly that token. *)
Theorem bearer_prefix_optional token f now d :
  token_hex_shape 32 token = true →
  verify_token f now (Some ("Bearer " +:+ token)) d
  = verify_token f now (Some token) d
  ∧ verify_token (logout (Some ("Bearer " +:+ token))) now
      (Some ("Bearer " +:+ token)) d
    = verify_token (logout (Some token)) now (Some token) d
  ∧ verify_token f now (Some token) d
    = match find_one (by_token token) (sessions_collection d) with
      | None => (d, Response (BError "Invalid token") 401)
      | Some session =>
          if dt_ltb (Session.expires session) now then
            (mk_db _ (users_collection d) (tasks_collection d)
               (fst (delete_one (by_token token) (sessions_collection d))),
             Response (BError "Token expired") 401)
          else f (Session.user_id session) d
      end.
Proof.
  intros Htok.
  destruct (presents_header (Some ("Bearer " +:+ token)) token Htok)
    as [Hf1 Hr1]; [by left|].
  destruct (presents_header (Some token) token Htok) as [Hf2 Hr2];
    [by right|].
  unfold verify_token, logout. by rewrite Hf1, Hf2, Hr1, Hr2.
Qed.






End Extras.

(** ** The claims on the demonstration store *)

Section DemoFacts.
Import Demo.

Example demo_store_tasks :
  tasks_collection store = [milk; report; home; rent].
Proof. reflexivity. Qed.

Example demo_store_users : users_collection store = [alice_user; bob_user].
Proof. reflexivity. Qed.

Example demo_milk_id : oid_str (Task._id milk) = milk_id.
Proof. reflexivity. Qed.

Example demo_store_sessions :
  sessions_collection store = [alice_session; bob_session].
Proof. reflexivity. Qed.

Lemma reachable_run_all `{Platform} cs d :
  reachable d → forallb env_ok cs = true → reachable (run_all cs d).
Proof.
  revert d. induction cs as [|c cs IH]; intros d Hd Hcs; [exact Hd|].
  simpl in Hcs. apply andb_true_iff in Hcs as [Hc Hcs].
  apply IH; [|exact Hcs]. by apply reachable_step.
Qed.

Lemma demo_store_reachable : reachable store.
Proof.
  change store with (run_all history empty_db).
  apply reachable_run_all; [constructor|]. by vm_compute.
Qed.
End DemoFacts.

(** ** The claims at concrete requests *)

Import Demo.


Lemma single_session_witness :
  (∀ s1 s2, In s1 (sessions_collection store) →
            In s2 (sessions_collection store) →
            Session.user_id s1 = Session.user_id s2 → s1 = s2)
  ∧ verify_token verify (at_time 10 3) (bearer spare_token) store2
    = (store2, Response (BError "Invalid token") 401).
Proof.
  destruct (single_session store demo_store_reachable) as (Hone & _ & Hold).
  split; [exact Hone|].
  apply (Hold spare_token (at_time 10 0) alice_credentials store1
           "alice" "a@x.com" between
           fresh_token (at_time 10 2) alice_credentials store2 "a@x.com").
  - reflexivity.
  - reflexivity.
  - reflexivity.
  - reflexivity.
  - discriminate.
  - left. reflexivity.
Defined.

Lemma expired_session_evicted_witness :
  ∃ d',
    verify_token verify (mk_datetime 2024 1 3 0 0 0 0) (bearer alice_token)
      store
    = (d', Response (BError "Token expired") 401)
    ∧ users_collection d' = users_collection store
    ∧ tasks_collection d' = tasks_collection store
    ∧ (∀ x, In x (sessions_collection d') ↔
            In x (sessions_collection store)
            ∧ Session.token x ≠ Session.token alice_session)
    ∧ ∀ f' now',
        verify_token f' now' (bearer alice_token) d'
        = (d', Response (BError "Invalid token") 401).
Proof.
  apply (expired_session_evicted store alice_session (bearer alice_token)
           (mk_datetime 2024 1 3 0 0 0 0) verify).
  - exact demo_store_reachable.
  - simpl. auto.
  - reflexivity.
  - left. reflexivity.
Defined.





(** C6: [update_task] stores an empty title.  The owner's update of the
    task "buy milk" with the patch [{"title": ""}] is answered 200, and the
    store it leaves, which is reachable, holds that task with the empty
    string as its title; [create_task] rejects the same title. *)
Theorem update_task_stores_empty_title :
  let c := UpdateTask (at_time 10 0) (bearer alice_token) milk_id
             (at_time 10 0) (title_only "") in
  ∃ j t,
    snd (run c store) = Response (BTask j) 200
    ∧ TaskJson.title j = PStr ""
    ∧ reachable (fst (run c store))
    ∧ In t (tasks_collection (fst (run c store)))
    ∧ Task._id t = Task._id milk
    ∧ Task.title t = PStr ""
    ∧ snd (create_task new_id (at_time 10 0) (at_time 10 0) (title_only "")
             "alice" store)
      = Response (BError "Title is required") 400.
Proof.
  intros c.
  eexists _, (Task.mk _ (Task._id milk) (PStr "") (PStr "") (PBool false) "alice"
                PNone PNone (PStr "general") (at_time 9 4) (at_time 10 0)).
  split_and!; try reflexivity.
  - apply reachable_step; [exact demo_store_reachable|reflexivity].
  - vm_compute. tauto.
Qed.




(** C9: the decorator removes every occurrence of ["Bearer "], not only a
    prefix.  For the token string ["Bearer " + alice's token], which is no
    session's token, the header ["Bearer " + token] is validated as alice;
    so is a header that does not begin with ["Bearer "] and carries it in
    the middle of alice's token.  A missing or empty header is answered
    401 "No token provided". *)
Theorem verify_token_strips_inner_bearer :
  let token := "Bearer " +:+ alice_token in
  let split_header :=
    "a1a1a1a1a1a1a1a1a1a1a1a1a1a1a1a1Bearer a1a1a1a1a1a1a1a1a1a1a1a1a1a1a1a1" in
  (∀ s, In s (sessions_collection store) → Session.token s ≠ token)
  ∧ run (Verify (at_time 10 0) (Some ("Bearer " +:+ token))) store
    = (store, Response (BVerify true "alice") 200)
  ∧ starts_with "Bearer " split_header = false
  ∧ (∀ s, In s (sessions_collection store) → Session.token s ≠ split_header)
  ∧ run (Verify (at_time 10 0) (Some split_header)) store
    = (store, Response (BVerify true "alice") 200)
  ∧ run (Verify (at_time 10 0) None) store
    = (store, Response (BError "No token provided") 401)
  ∧ run (Verify (at_time 10 0) (Some "")) store
    = (store, Response (BError "No token provided") 401).
Proof.
  intros token split_header. split_and!; try reflexivity.
  - intros s [<-|[<-|[]]]; discriminate.
  - intros s [<-|[<-|[]]]; discriminate.
Qed.


(** ** The further properties at concrete requests *)


Lemma task_owner_immutable_witness :
  Task.user_id milk_updated = Task.user_id milk
  ∧ Task.created_at milk_updated = Task.created_at milk.
Proof.
  apply (task_owner_immutable alice_updates store milk milk_updated).
  - exact demo_store_reachable.
  - simpl. auto.
  - vm_compute. auto.
  - reflexivity.
Defined.


Lemma session_survives_witness :
  In alice_session
    (sessions_collection
       (fst (run (Logout (at_time 10 0) (bearer bob_token)) store))).
Proof.
  apply (session_survives (Logout (at_time 10 0) (bearer bob_token)) store
           alice_session).
  - simpl. auto.
  - reflexivity.
  - vm_compute. discriminate.
Defined.

Lemma logout_revokes_witness :
  ∃ d',
    run (Logout (at_time 10 0) (bearer alice_token)) store
    = (d', Response (BMessage "Logged out successfully") 200)
    ∧ users_collection d' = users_collection store
    ∧ tasks_collection d' = tasks_collection store
    ∧ (∀ x, In x (sessions_collection d') ↔
            In x (sessions_collection store)
            ∧ Session.token x ≠ Session.token alice_session)
    ∧ ∀ f now',
        verify_token f now' (bearer alice_token) d'
        = (d', Response (BError "Invalid token") 401).
Proof.
  apply (logout_revokes store alice_session (bearer alice_token)
           (at_time 10 0)).
  - exact demo_store_reachable.
  - simpl. auto.
  - left. reflexivity.
  - reflexivity.
Defined.

Lemma delete_task_removes_witness :
  ∃ l1 l2,
    tasks_collection store = l1 ++ milk :: l2
    ∧ (∀ x, In x (l1 ++ l2) → Task._id x ≠ Task._id milk)
    ∧ let d' :=
        mk_db _ (users_collection store) (l1 ++ l2)
          (sessions_collection store) in
      delete_task milk_id "alice" store
      = (d', Response (BMessage "Task deleted successfully") 200)
      ∧ delete_task milk_id "alice" d'
        = (d', Response (BError "Task not found") 404)
      ∧ ∀ now data,
          update_task milk_id now data "alice" d'
          = (d', Response (BError "Task not found") 404).
Proof.
  apply (delete_task_removes store milk milk_id).
  - exact demo_store_reachable.
  - simpl. auto.
  - reflexivity.
Defined.



Lemma register_then_login_witness :
  ∃ username email expires d'',
    carol_credentials !! "username" = Some username
    ∧ carol_credentials !! "email" = Some email
    ∧ login spare_token (at_time 10 5) carol_credentials store4
      = (d'', Response (BLogin spare_token username email) 200)
    ∧ In (Session.mk spare_token username (bson_datetime expires))
        (sessions_collection d'')
    ∧ add_24h (at_time 10 5) = Some expires.
Proof.
  apply (register_then_login carol_id (at_time 10 0) carol_credentials store
           store4 spare_token (at_time 10 5)).
  - exact demo_store_reachable.
  - reflexivity.
  - intros s [<-|[<-|[]]]; discriminate.
  - simpl. lia.
Defined.

Lemma users_stay_unique_witness :
  (∀ u1 u2,
     In u1 (users_collection store) → In u2 (users_collection store) →
     User.username u1 = User.username u2
     ∨ User.email u1 = User.email u2
     ∨ User._id u1 = User._id u2 →
     u1 = u2)
  ∧ ∀ u, In u (users_collection store) →
         User.username u ≠ "" ∧ User.email u ≠ ""
         ∧ ∃ password, password ≠ ""
                       ∧ User.password u = hash_password password.
Proof. exact (users_stay_unique store demo_store_reachable). Defined.

Lemma bearer_prefix_optional_witness :
  verify_token verify (at_time 10 0) (Some ("Bearer " +:+ alice_token)) store
  = verify_token verify (at_time 10 0) (Some alice_token) store
  ∧ verify_token verify (at_time 10 0) (Some alice_token) store
    = (store, Response (BVerify true "alice") 200).
Proof.
  destruct (bearer_prefix_optional alice_token verify (at_time 10 0) store)
    as (Hsame & _ & Hlookup); [reflexivity|].
  split; [exact Hsame|]. rewrite Hlookup. reflexivity.
Defined.

